(** * file-scanner-api: a shallow embedding of the job pipeline

    The development follows the Python sources module by module:
    [app/config.py], [app/models.py], [app/storage.py], [app/database.py],
    [app/cache.py], [app/queue.py], [scripts/worker_simulator.py],
    [app/cleanup.py] and [app/api.py].  Coroutines become functions that
    pass the state they touch explicitly; a raised exception is the left
    summand of the result.  Calls to PostgreSQL and Redis are taken to
    succeed; the file system, the clock and the disk-usage probe are part
    of the explicit state or of the environment of a call. *)

From Stdlib Require Import QArith Strings.Byte Strings.Ascii.
From stdpp Require Import gmap strings list fin_maps pretty.

#[local] Set Warnings "-clear-no-such-hyp".

Local Open Scope string_scope.
Local Open Scope list_scope.

(** ** What the Python runtime provides *)

(** Library functions the sources call and that are not part of the
    repository.  Each field is the function of the same Python name. *)
Class Platform := {
  (** [hashlib.sha256(data).hexdigest()] *)
  sha256_hex : list byte → string;
  (** [round(x, 2)] on a float *)
  py_round2 : Q → Q;
  (** formatting of a float inside an f-string *)
  py_str_float : Q → string;
  (** UTF-8 decoding, with [errors='ignore'], of a maximal run of bytes
      above 127 *)
  utf8_decode_high : list byte → list N;
  (** [str.upper()] of one code point above 127 *)
  str_upper_high : N → list N
}.

(** Exceptions raised in the modelled code. *)
Inductive Exn :=
  | HTTPException (status_code : nat) (detail : string)
  | IOError (msg : string)
  | FileNotFoundError (msg : string)
  | OSError (msg : string)
  | ZeroDivisionError (msg : string)
  | UniqueViolationError (msg : string).

(** [str(e)] *)
Definition str_exn (e : Exn) : string :=
  match e with
  | HTTPException c d => pretty c +:+ ": " +:+ d
  | IOError m | FileNotFoundError m | OSError m
  | ZeroDivisionError m | UniqueViolationError m => m
  end.

Definition result (A : Type) : Type := (Exn + A)%type.

(** A job identifier; [uuid.uuid4()] is drawn from a counter kept in the
    state, so two draws never coincide. *)
Definition UUID := nat.

Module Py.

(** [stream.read(n)] repeated until it returns nothing. *)
Fixpoint read_chunks {A} (fuel n : nat) (data : list A) : list (list A) :=
  match fuel with
  | O => []
  | S fuel' =>
      match take n data with
      | [] => []
      | chunk => chunk :: read_chunks fuel' n (drop n data)
      end
  end.

(** All the chunks of [data]: every non-empty chunk consumes at least
    one element, so [S (length data)] rounds are enough. *)
Definition chunks {A} (n : nat) (data : list A) : list (list A) :=
  read_chunks (S (length data)) n data.

(** [s.startswith(p)] and the rest of [s] after [p]. *)
Fixpoint strip_prefix (p s : string) : option string :=
  match p, s with
  | EmptyString, _ => Some s
  | String a p', String b s' =>
      if Ascii.eqb a b then strip_prefix p' s' else None
  | String _ _, EmptyString => None
  end.

(** ["/" in s] *)
Fixpoint has_slash (s : string) : bool :=
  match s with
  | EmptyString => false
  | String c s' => Ascii.eqb c "/"%char || has_slash s'
  end.

(** [s.replace(old, new)] for a non-empty [old]: [skip] counts the
    characters of a match that are still to be dropped. *)
Fixpoint replace_from (skip : nat) (old new s : string) : string :=
  match s with
  | EmptyString => EmptyString
  | String c s' =>
      match skip with
      | S k => replace_from k old new s'
      | O =>
          if String.prefix old s
          then new +:+ replace_from (String.length old - 1) old new s'
          else String c (replace_from 0 old new s')
      end
  end.

(** With an empty [old], Python inserts [new] around every character. *)
Fixpoint intersperse (new s : string) : string :=
  match s with
  | EmptyString => new
  | String c s' => new +:+ String c (intersperse new s')
  end.

Definition replace (old new s : string) : string :=
  match old with
  | EmptyString => intersperse new s
  | _ => replace_from 0 old new s
  end.

(** The digits of [n] in base 16, least significant first. *)
Fixpoint hex_digits (fuel : nat) (n : N) : list Ascii.ascii :=
  match fuel with
  | O => []
  | S fuel' =>
      let d := (n mod 16)%N in
      let c := if (d <? 10)%N then Ascii.ascii_of_N (48 + d)
               else Ascii.ascii_of_N (87 + d) in
      c :: hex_digits fuel' (n / 16)%N
  end.

End Py.

(** ** app/config.py *)

Module Config.

Record Settings := {
  file_storage_path : string;
  max_file_size_mb : Z;
  storage_warning_threshold : Z;
  storage_critical_threshold : Z;
  storage_emergency_threshold : Z;
  job_cache_ttl : Z;
  file_cache_ttl : Z;
  redis_stream_name : string;
  redis_consumer_group : string;
  max_upload_size : Z;
  file_retention_days : Z;
  cleanup_orphaned_files_hours : Z;
  upload_timeout_seconds : Z
}.

(** The defaults of the class [Settings]. *)
Definition get_settings : Settings := {|
    file_storage_path := "/tmp/file_scanner_data/files";
    max_file_size_mb := 100;
    storage_warning_threshold := 85;
    storage_critical_threshold := 90;
    storage_emergency_threshold := 95;
    job_cache_ttl := 3600;
    file_cache_ttl := 86400;
    redis_stream_name := "scan_jobs";
    redis_consumer_group := "scanner_workers";
    max_upload_size := 104857600;
    file_retention_days := 7;
    cleanup_orphaned_files_hours := 1;
    upload_timeout_seconds := 300
  |}.

End Config.
Export Config.

(** ** app/models.py *)

Module Models.

Inductive JobStatus := PENDING | PROCESSING | COMPLETED | FAILED.

Definition JobStatus_value (s : JobStatus) : string :=
  match s with
  | PENDING => "pending"
  | PROCESSING => "processing"
  | COMPLETED => "completed"
  | FAILED => "failed"
  end.

Definition JobStatus_eqb (a b : JobStatus) : bool :=
  match a, b with
  | PENDING, PENDING | PROCESSING, PROCESSING
  | COMPLETED, COMPLETED | FAILED, FAILED => true
  | _, _ => false
  end.

(** A scan result, [Dict[str, int]]: the keys are one-character strings,
    given by their code point, in insertion order. *)
Definition Results := list (N * nat).

(** Truth value of a dict: non-empty. *)
Definition truthy (r : Results) : bool :=
  match r with [] => false | _ => true end.

(** Truth value of an optional dict ([None] is false). *)
Definition truthy_opt (r : option Results) : bool :=
  match r with Some r' => truthy r' | None => false end.

Record FileUploadResponse := {
  r_job_id : UUID;
  r_status : JobStatus;
  r_message : string;
  r_deduplication : bool;
  r_results : option Results
}.

Record JobStatusResponse := {
  s_job_id : UUID;
  s_status : JobStatus;
  s_original_filename : string;
  s_file_size : nat;
  s_results : option Results;
  s_error_message : option string;
  s_created_at : Z;
  s_updated_at : Z;
  s_completed_at : option Z
}.

End Models.
Export Models.

(** ** app/storage.py *)

Module Storage.

(** A regular file: its bytes and its modification time (seconds). *)
Record File := { content : list byte; mtime : Z }.

(** The files of the storage volume by path; directories are implicit. *)
Abbreviation FS := (gmap string File).

(** Result of [shutil.disk_usage]. *)
Record DiskUsage := { total : Z; used : Z; free : Z }.

Inductive StorageStatus := Healthy | Warning | Critical | Emergency.

(** The dict returned by [get_storage_stats] when no error occurred. *)
Record StorageStats := {
  total_bytes : Z;
  used_bytes : Z;
  free_bytes : Z;
  percent_used : Q;
  status : StorageStatus
}.

(** What can go wrong around one upload: the timer of
    [asyncio.timeout] may fire before the commit, and the medium may
    hand back other bytes than those written ([io_media] is the
    identity on a sound disk). *)
Record UploadIO := { io_timeout : bool; io_media : list byte → list byte }.

(** The dict returned by [cleanup_orphaned_temp_files]. *)
Record OrphanReport := {
  deleted_count : nat;
  deleted_size_bytes : nat;
  threshold_hours : Z
}.

Section WithSettings.
Context `{Platform} (settings : Settings).

Definition base_path : string := file_storage_path settings.

Definition chunk_size : nat := 1024 * 1024.

(** [uuid.uuid4().hex]: 32 hexadecimal digits. *)
Definition uuid_hex (u : UUID) : string :=
  String.string_of_list_ascii (rev (Py.hex_digits 32 (N.of_nat u))).

Definition _get_file_path (file_hash : string) : string :=
  base_path +:+ "/" +:+ String.substring 0 2 file_hash
            +:+ "/" +:+ String.substring 2 2 file_hash
            +:+ "/" +:+ file_hash.

Definition temp_path_of (u : UUID) (filename : string) : string :=
  base_path +:+ "/" +:+ "temp_" +:+ uuid_hex u +:+ "_" +:+ filename.

(** The streaming loop of [calculate_hash_and_save]: the bytes fed to
    the hash object, the running size and the bytes written. *)
Definition stream_to_temp (chunks : list (list byte))
  : list byte * nat * list byte :=
  fold_left
    (λ '(sha, file_size, written) chunk,
       (sha ++ chunk, file_size + length chunk, written ++ chunk))
    chunks ([], 0, []).

(** [shutil.move(src, dst)] of a file that exists. *)
Definition shutil_move (src dst : string) (fs : FS) : FS :=
  match fs !! src with
  | Some f => <[dst := f]> (delete src fs)
  | None => fs
  end.

Definition _verify_file_integrity (fs : FS) (file_path expected_hash : string)
  : FS * result unit :=
  match fs !! file_path with
  | None => (fs, inl (FileNotFoundError file_path))
  | Some f =>
      let verify_hash :=
        fold_left (λ acc chunk, acc ++ chunk)
                  (Py.chunks chunk_size (content f)) [] in
      let calculated_hash := sha256_hex verify_hash in
      if String.eqb calculated_hash expected_hash
      then (fs, inr tt)
      else (delete file_path fs,
            inl (IOError "File corruption detected during upload"))
  end.

Definition calculate_hash_and_save
    (io : UploadIO) (now : Z) (tmp : UUID) (fs : FS)
    (file_data : list byte) (filename : string)
  : FS * result (string * nat * string) :=
  let temp_path := temp_path_of tmp filename in
  let '(sha, file_size, written) :=
    stream_to_temp (Py.chunks chunk_size file_data) in
  if io_timeout io then
    (delete temp_path fs,
     inl (HTTPException 408
            ("Upload timeout: file upload took longer than "
             +:+ pretty (upload_timeout_seconds settings) +:+ " seconds")))
  else
    let fs1 := <[temp_path := {| content := io_media io written;
                                 mtime := now |}]> fs in
    let file_hash := sha256_hex sha in
    let final_path := _get_file_path file_hash in
    match fs1 !! final_path with
    | Some _ =>
        (delete temp_path fs1, inr (file_hash, file_size, final_path))
    | None =>
        match _verify_file_integrity fs1 temp_path file_hash with
        | (fs2, inl e) => (delete temp_path fs2, inl e)
        | (fs2, inr _) =>
            (shutil_move temp_path final_path fs2,
             inr (file_hash, file_size, final_path))
        end
    end.

Definition file_exists (fs : FS) (file_hash : string) : bool :=
  bool_decide (is_Some (fs !! _get_file_path file_hash)).

Definition delete_file (fs : FS) (file_hash : string) : FS * bool :=
  let file_path := _get_file_path file_hash in
  match fs !! file_path with
  | Some _ => (delete file_path fs, true)
  | None => (fs, false)
  end.

Fixpoint delete_files (fs : FS) (file_hashes : list string) : FS * nat :=
  match file_hashes with
  | [] => (fs, 0)
  | file_hash :: rest =>
      let '(fs1, ok) := delete_file fs file_hash in
      let '(fs2, n) := delete_files fs1 rest in
      (fs2, if ok then S n else n)
  end.

(** A path matched by [glob(base_path / "temp_*")]. *)
Definition is_temp_file (p : string) : bool :=
  match Py.strip_prefix (base_path +:+ "/" +:+ "temp_") p with
  | Some rest => negb (Py.has_slash rest)
  | None => false
  end.

Definition is_orphan (now : Z) (p : string) (f : File) : bool :=
  is_temp_file p
  && (cleanup_orphaned_files_hours settings * 3600 <? now - mtime f)%Z.

Definition cleanup_orphaned_temp_files (now : Z) (fs : FS) : FS * OrphanReport :=
  let orphans := filter (λ kv, Is_true (is_orphan now kv.1 kv.2)) fs in
  (filter (λ kv, ¬ Is_true (is_orphan now kv.1 kv.2)) fs,
   {| deleted_count := size orphans;
      deleted_size_bytes :=
        map_fold (λ _ f acc, length (content f) + acc) 0 orphans;
      threshold_hours := cleanup_orphaned_files_hours settings |}).

(** The thresholds, integers of the settings, as the numbers a
    percentage is compared with. *)
Definition emergency_at : Q := inject_Z (storage_emergency_threshold settings).
Definition critical_at : Q := inject_Z (storage_critical_threshold settings).
Definition warning_at : Q := inject_Z (storage_warning_threshold settings).

Definition _get_storage_status (percent_used : Q) : StorageStatus :=
  if Qle_bool emergency_at percent_used then Emergency
  else if Qle_bool critical_at percent_used then Critical
  else if Qle_bool warning_at percent_used then Warning
  else Healthy.

(** [(used / total) * 100], the floats taken as the rationals they
    stand for. *)
Definition measured_percent (stat : DiskUsage) : Q :=
  (inject_Z (used stat) / inject_Z (total stat) * inject_Z 100)%Q.

(** [du] is the outcome of [shutil.disk_usage(self.base_path)]; the
    error dict is represented by its ["error"] entry. *)
Definition get_storage_stats (du : result DiskUsage) : string + StorageStats :=
  match du with
  | inl e => inl (str_exn e)
  | inr stat =>
      if (total stat =? 0)%Z then inl (str_exn (ZeroDivisionError "division by zero"))
      else
        let percent := measured_percent stat in
        inr {| total_bytes := total stat;
               used_bytes := used stat;
               free_bytes := free stat;
               percent_used := py_round2 percent;
               status := _get_storage_status percent |}
  end.

Definition should_accept_upload (du : result DiskUsage) : bool * string :=
  match get_storage_stats du with
  | inl _ => (true, "ok")
  | inr stats =>
      match status stats with
      | Emergency =>
          (false, "Storage critical: " +:+ py_str_float (percent_used stats)
                  +:+ "% used. Uploads temporarily disabled.")
      | Critical =>
          (true, "warning: storage at " +:+ py_str_float (percent_used stats)
                 +:+ "%")
      | _ => (true, "ok")
      end
  end.

End WithSettings.

(** The tiers in the order of their pressure. *)
Definition severity (s : StorageStatus) : nat :=
  match s with
  | Healthy => 0
  | Warning => 1
  | Critical => 2
  | Emergency => 3
  end.

End Storage.

(** ** app/database.py *)

Module Database.

(** A row of the table [jobs] (the columns the code reads or writes). *)
Record Job := {
  job_id : UUID;
  file_hash : string;
  original_filename : string;
  file_size : nat;
  status : JobStatus;
  results : option Results;
  error_message : option string;
  created_at : Z;
  updated_at : Z;
  completed_at : option Z;
  expires_at : Z
}.

(** [json.dumps(results) if results else None] *)
Definition results_json (results : option Results) : option Results :=
  if truthy_opt results then results else None.

(** [COALESCE(new, old)] *)
Definition coalesce {A} (new old : option A) : option A :=
  match new with Some _ => new | None => old end.

Definition is_terminal (s : JobStatus) : bool :=
  match s with COMPLETED | FAILED => true | _ => false end.

(** [ORDER BY completed_at DESC]: does [a] come strictly before [b]?
    PostgreSQL puts NULL first in a descending order. *)
Definition sorts_before (a b : Job) : bool :=
  match completed_at a, completed_at b with
  | None, Some _ => true
  | Some x, Some y => (y <? x)%Z
  | _, _ => false
  end.

(** [LIMIT 1] after the ordering; among equal keys the row met first in
    the table is kept. *)
Fixpoint first_by_completed_at (best : option Job) (rows : list Job) : option Job :=
  match rows with
  | [] => best
  | j :: rest =>
      match best with
      | None => first_by_completed_at (Some j) rest
      | Some b =>
          first_by_completed_at (Some (if sorts_before j b then j else b)) rest
      end
  end.

(** The row of an [UPDATE ... SET status, results, error_message,
    completed_at], with the trigger that refreshes [updated_at]. *)
Definition updated_row (now : Z) (status_ : JobStatus)
    (results_ : option Results) (error_message_ : option string) (j : Job) : Job :=
  {| job_id := job_id j;
     file_hash := file_hash j;
     original_filename := original_filename j;
     file_size := file_size j;
     status := status_;
     results := coalesce (results_json results_) (results j);
     error_message := error_message_;
     created_at := created_at j;
     updated_at := now;
     completed_at :=
       coalesce (if is_terminal status_ then Some now else None) (completed_at j);
     expires_at := expires_at j |}.

Section WithSettings.
Context (settings : Settings).

(** The row of the [INSERT]. *)
Definition new_row (now : Z) (job_id_ : UUID) (file_hash_ original_filename_ : string)
      (file_size_ : nat) (status_ : JobStatus) (results_ : option Results) : Job :=
  {| job_id := job_id_;
     file_hash := file_hash_;
     original_filename := original_filename_;
     file_size := file_size_;
     status := status_;
     results := results_json results_;
     error_message := None;
     created_at := now;
     updated_at := now;
     completed_at := None;
     expires_at := (now + file_retention_days settings * 86400)%Z |}.

Definition create_job (now : Z) (jobs : list Job)
      (job_id_ : UUID) (file_hash_ original_filename_ : string) (file_size_ : nat)
      (status_ : JobStatus) (results_ : option Results)
    : result (list Job * Job) :=
  if existsb (λ j, Nat.eqb (job_id j) job_id_) jobs then
    inl (UniqueViolationError "duplicate key value violates unique constraint")
  else if (64 <? String.length file_hash_)%nat
          || (255 <? String.length original_filename_)%nat then
    inl (OSError "value too long for type character varying")
  else
    let row := new_row now job_id_ file_hash_ original_filename_ file_size_
                 status_ results_ in
    inr (jobs ++ [row], row).

Definition get_job (jobs : list Job) (job_id_ : UUID) : option Job :=
  List.find (λ j, Nat.eqb (job_id j) job_id_) jobs.

Definition get_completed_job_by_hash (jobs : list Job) (file_hash_ : string)
  : option Job :=
  first_by_completed_at None
    (List.filter (λ j, String.eqb (file_hash j) file_hash_
                       && JobStatus_eqb (status j) COMPLETED) jobs).

Definition update_job_status (now : Z) (jobs : list Job) (job_id_ : UUID)
    (status_ : JobStatus) (results_ : option Results)
    (error_message_ : option string) : list Job * bool :=
  (map (λ j, if Nat.eqb (job_id j) job_id_
             then updated_row now status_ results_ error_message_ j else j) jobs,
   existsb (λ j, Nat.eqb (job_id j) job_id_) jobs).

Definition delete_expired_jobs (now : Z) (jobs : list Job) : list Job * nat :=
  (List.filter (λ j, negb (expires_at j <? now)%Z) jobs,
   length (List.filter (λ j, (expires_at j <? now)%Z) jobs)).

(** [SELECT DISTINCT file_hash ... WHERE created_at < NOW() - INTERVAL
    '1 day' * days] *)
Definition get_old_file_hashes (now : Z) (jobs : list Job) (days : Z)
  : list string :=
  remove_dups
    (map file_hash
       (List.filter (λ j, (created_at j <? now - 86400 * days)%Z) jobs)).

End WithSettings.

End Database.

(** ** app/cache.py *)

Module Cache.

(** The value stored under [file:{hash}:results]. *)
Record FileEntry := {
  fe_file_hash : string;
  fe_results : Results;
  fe_file_size : nat
}.

(** The value stored under [job:{id}:status]. *)
Record JobEntry := {
  je_job_id : UUID;
  je_status : JobStatus;
  je_original_filename : string;
  je_file_size : nat;
  je_results : option Results;
  je_error_message : option string;
  je_created_at : Z;
  je_updated_at : Z;
  je_completed_at : option Z
}.

(** The two families of keys, each value with the time at which its
    [SETEX] expires (the configured lifetimes are positive). *)
Record Keys := {
  job_keys : gmap UUID (JobEntry * Z);
  file_keys : gmap string (FileEntry * Z)
}.

(** [GET] of a key set with [SETEX]: gone once its time is up. *)
Definition live {A} (now : Z) (v : option (A * Z)) : option A :=
  match v with
  | Some (a, expires) => if (now <? expires)%Z then Some a else None
  | None => None
  end.

Section WithSettings.
Context (settings : Settings).

Definition set_job_status (now : Z) (c : Keys) (job_id_ : UUID)
    (job_data : Database.Job) : Keys :=
  let cache_data := {|
    je_job_id := Database.job_id job_data;
    je_status := Database.status job_data;
    je_original_filename := Database.original_filename job_data;
    je_file_size := Database.file_size job_data;
    je_results := Database.results job_data;
    je_error_message := Database.error_message job_data;
    je_created_at := Database.created_at job_data;
    je_updated_at := Database.updated_at job_data;
    je_completed_at := Database.completed_at job_data |} in
  {| job_keys := <[job_id_ := (cache_data, (now + job_cache_ttl settings)%Z)]> (job_keys c);
     file_keys := file_keys c |}.

Definition get_job_status (now : Z) (c : Keys) (job_id_ : UUID) : option JobEntry :=
  live now (job_keys c !! job_id_).

Definition set_file_results (now : Z) (c : Keys) (file_hash_ : string)
    (results_ : Results) (file_size_ : nat) : Keys :=
  let cache_data := {| fe_file_hash := file_hash_;
                       fe_results := results_;
                       fe_file_size := file_size_ |} in
  {| job_keys := job_keys c;
     file_keys := <[file_hash_ := (cache_data, (now + file_cache_ttl settings)%Z)]> (file_keys c) |}.

Definition get_file_results (now : Z) (c : Keys) (file_hash_ : string)
  : option FileEntry :=
  live now (file_keys c !! file_hash_).

Definition invalidate_job (c : Keys) (job_id_ : UUID) : Keys :=
  {| job_keys := delete job_id_ (job_keys c); file_keys := file_keys c |}.

End WithSettings.

End Cache.

(** ** app/queue.py *)

Module Queue.

(** The fields of an entry of the stream; they travel as strings and
    are given here with the type they are read back at. *)
Record ScanJobMessage := {
  m_job_id : UUID;
  m_file_hash : string;
  m_file_path : string;
  m_file_size : nat;
  m_timestamp : Z
}.

(** The stream with its one consumer group: the entries in publish
    order (the identifier of an entry is its position), how many of them
    the group was handed, and those handed out and not acknowledged. *)
Record Stream := {
  entries : list ScanJobMessage;
  last_delivered : nat;
  pending : list nat
}.

(** [XADD]; returns the identifier of the new entry. *)
Definition publish_job (now : Z) (q : Stream) (job_id_ : UUID)
    (file_hash_ file_path_ : string) (file_size_ : nat) : Stream * nat :=
  let message := {| m_job_id := job_id_;
                    m_file_hash := file_hash_;
                    m_file_path := file_path_;
                    m_file_size := file_size_;
                    m_timestamp := now |} in
  ({| entries := entries q ++ [message];
      last_delivered := last_delivered q;
      pending := pending q |},
   length (entries q)).

(** [XREADGROUP ... streams={name: '>'}, count=1]: the next entry never
    handed to the group, which becomes pending. *)
Definition xreadgroup (q : Stream) : Stream * option (nat * ScanJobMessage) :=
  match entries q !! last_delivered q with
  | Some message =>
      ({| entries := entries q;
          last_delivered := S (last_delivered q);
          pending := pending q ++ [last_delivered q] |},
       Some (last_delivered q, message))
  | None => (q, None)
  end.

(** [XACK] *)
Definition xack (q : Stream) (message_id : nat) : Stream :=
  {| entries := entries q;
     last_delivered := last_delivered q;
     pending := List.filter (λ i, negb (Nat.eqb i message_id)) (pending q) |}.

Definition get_stream_length (q : Stream) : nat := length (entries q).
Definition get_pending_count (q : Stream) : nat := length (pending q).

End Queue.

(** ** The state shared by the API, the worker and the cleanup service *)

Record World := {
  now : Z;                       (** the clock, in seconds *)
  next_uuid : nat;               (** the source of [uuid.uuid4()] *)
  fs : Storage.FS;               (** the storage volume *)
  jobs : list Database.Job;      (** the table [jobs] *)
  cache : Cache.Keys;            (** Redis keys *)
  queue : Queue.Stream           (** the Redis stream and its group *)
}.

Definition with_now (t : Z) (w : World) : World :=
  {| now := t; next_uuid := next_uuid w; fs := fs w; jobs := jobs w;
     cache := cache w; queue := queue w |}.
Definition with_next_uuid (u : nat) (w : World) : World :=
  {| now := now w; next_uuid := u; fs := fs w; jobs := jobs w;
     cache := cache w; queue := queue w |}.
Definition with_fs (f : Storage.FS) (w : World) : World :=
  {| now := now w; next_uuid := next_uuid w; fs := f; jobs := jobs w;
     cache := cache w; queue := queue w |}.
Definition with_jobs (js : list Database.Job) (w : World) : World :=
  {| now := now w; next_uuid := next_uuid w; fs := fs w; jobs := js;
     cache := cache w; queue := queue w |}.
Definition with_cache (c : Cache.Keys) (w : World) : World :=
  {| now := now w; next_uuid := next_uuid w; fs := fs w; jobs := jobs w;
     cache := c; queue := queue w |}.
Definition with_queue (q : Queue.Stream) (w : World) : World :=
  {| now := now w; next_uuid := next_uuid w; fs := fs w; jobs := jobs w;
     cache := cache w; queue := q |}.

(** [uuid.uuid4()] *)
Definition uuid4 (w : World) : UUID * World :=
  (next_uuid w, with_next_uuid (S (next_uuid w)) w).

(** [asyncio.sleep(seconds)], and time passing between two calls. *)
Definition sleep (seconds : Z) (w : World) : World :=
  with_now (now w + seconds)%Z w.

(** ** scripts/worker_simulator.py *)

Module Worker.

(** [os.getenv] of the two variables of the path translation. *)
Record Environ := {
  DOCKER_FILE_PATH : option string;
  LOCAL_FILE_PATH : option string
}.

Section WithSettings.
Context `{Platform} (settings : Settings).

Definition chunk_size : nat := 1024 * 1024.

Definition flush_high (high : list byte) : list N :=
  match high with
  | [] => []
  | _ => utf8_decode_high (rev high)
  end.

(** Text of a file opened with [encoding='utf-8', errors='ignore']:
    a byte below 128 is its own code point; [high] collects the run
    of other bytes met since the last one, most recent first. *)
Fixpoint decode_from (high : list byte) (bs : list byte) : list N :=
  match bs with
  | [] => flush_high high
  | b :: rest =>
      if (Byte.to_N b <? 128)%N
      then flush_high high ++ Byte.to_N b :: decode_from [] rest
      else decode_from (b :: high) rest
  end.

Definition decode (bs : list byte) : list N := decode_from [] bs.

(** [str.upper()], character by character. *)
Definition upper_char (c : N) : list N :=
  if (97 <=? c)%N && (c <=? 122)%N then [(c - 32)%N]
  else if (c <? 128)%N then [c]
  else str_upper_high c.

Definition upper (chunk : list N) : list N := concat (map upper_char chunk).

(** [counts[char] += 1] for a key of the dict. *)
Definition incr (char : N) (counts : Results) : Results :=
  map (λ kv, if (kv.1 =? char)%N then (kv.1, S kv.2) else kv) counts.

Definition count_chunk (counts : Results) (chunk : list N) : Results :=
  fold_left
    (λ counts char,
       if (65 <=? char)%N && (char <=? 90)%N then incr char counts else counts)
    (upper chunk) counts.

Definition scan_file (files : Storage.FS) (file_path : string) : result Results :=
  let counts := map (λ i, (N.of_nat i, 0)) (seq 65 26) in
  match files !! file_path with
  | None => inl (FileNotFoundError ("File not found: " +:+ file_path))
  | Some f =>
      inr (fold_left count_chunk
             (Py.chunks chunk_size (decode (Storage.content f))) counts)
  end.

(** The worker's own [UPDATE jobs ...], followed by the deletion of
    the cached status of the job. *)
Definition update_job_status (w : World) (job_id_ : UUID) (status_ : JobStatus)
    (results_ : option Results) (error_message_ : option string) : World :=
  let rows :=
    map (λ j, if Nat.eqb (Database.job_id j) job_id_
              then Database.updated_row (now w) status_ results_ error_message_ j
              else j) (jobs w) in
  with_cache (Cache.invalidate_job (cache w) job_id_) (with_jobs rows w).

Definition cache_results (w : World) (file_hash_ : string) (results_ : Results)
    (file_size_ : nat) : World :=
  let value := {| Cache.fe_file_hash := file_hash_;
                  Cache.fe_results := results_;
                  Cache.fe_file_size := file_size_ |} in
  with_cache
    {| Cache.job_keys := Cache.job_keys (cache w);
       Cache.file_keys :=
         <[file_hash_ := (value, (now w + file_cache_ttl settings)%Z)]>
           (Cache.file_keys (cache w)) |} w.

(** Path translation for hybrid deployments. *)
Definition translate (env : Environ) (file_path : string) : string :=
  let docker_path := default "/data/files" (DOCKER_FILE_PATH env) in
  let local_path := default (file_storage_path settings) (LOCAL_FILE_PATH env) in
  if String.prefix docker_path file_path && negb (String.eqb docker_path local_path)
  then Py.replace docker_path local_path file_path
  else file_path.

(** [process_message], as the list of the states reached after each
    awaited statement, in order. *)
Definition process_message_trace (env : Environ) (w : World)
    (message_id : nat) (message_data : Queue.ScanJobMessage) : list World :=
  let job_id_ := Queue.m_job_id message_data in
  let file_hash_ := Queue.m_file_hash message_data in
  let file_size_ := Queue.m_file_size message_data in
  let file_path := translate env (Queue.m_file_path message_data) in
  let w1 := update_job_status w job_id_ PROCESSING None None in
  let w2 := sleep 1 w1 in
  match scan_file (fs w2) file_path with
  | inr results_ =>
      let w3 := update_job_status w2 job_id_ COMPLETED (Some results_) None in
      let w4 := cache_results w3 file_hash_ results_ file_size_ in
      let w5 := with_queue (Queue.xack (queue w4) message_id) w4 in
      [w1; w2; w3; w4; w5]
  | inl e =>
      let w3 := update_job_status w2 job_id_ FAILED None (Some (str_exn e)) in
      [w1; w2; w3]
  end.

Definition process_message (env : Environ) (w : World)
    (message_id : nat) (message_data : Queue.ScanJobMessage) : World :=
  List.last (process_message_trace env w message_id message_data) w.

(** One round of the loop of [run]; [read_error] tells whether
    [xreadgroup] raised. *)
Definition run_once (env : Environ) (read_error : bool) (w : World) : World :=
  if read_error then sleep 5 w
  else
    match Queue.xreadgroup (queue w) with
    | (_, None) => sleep 1 w
    | (q, Some (message_id, message_data)) =>
        process_message env (with_queue q w) message_id message_data
    end.

End WithSettings.

End Worker.

(** ** app/cleanup.py *)

Module Cleanup.

(** The dict a cleanup returns, one constructor for each shape. *)
Inductive Report :=
  | StatsError (error : string) (orphaned_cleanup : Storage.OrphanReport)
  | TierReport (status : Storage.StorageStatus) (deleted_files : nat)
      (percent_used : Q) (orphaned_cleanup : Storage.OrphanReport)
  | ExpiredReport (deleted_jobs deleted_files : nat) (timestamp : Z).

Section WithSettings.
Context `{Platform} (settings : Settings).

Definition cleanup_expired_files (w : World) : World * Report :=
  let '(rows, deleted_jobs) := Database.delete_expired_jobs (now w) (jobs w) in
  let w1 := with_jobs rows w in
  let old_hashes :=
    Database.get_old_file_hashes (now w1) (jobs w1) (file_retention_days settings) in
  let '(files, deleted_files) := Storage.delete_files settings (fs w1) old_hashes in
  (with_fs files w1, ExpiredReport deleted_jobs deleted_files (now w1)).

(** The branch of one tier: the content of the jobs older than [days]. *)
Definition delete_older_than (days : Z) (status_ : Storage.StorageStatus)
      (percent_used_ : Q) (orphaned_result : Storage.OrphanReport) (w : World)
    : World * Report :=
  let old_hashes := Database.get_old_file_hashes (now w) (jobs w) days in
  let '(files, deleted) := Storage.delete_files settings (fs w) old_hashes in
  (with_fs files w, TierReport status_ deleted percent_used_ orphaned_result).

(** [du] is what [shutil.disk_usage] answers once the orphaned temporary
    files are gone. *)
Definition cleanup_by_storage_state (du : result Storage.DiskUsage) (w : World)
    : World * Report :=
  let '(files, orphaned_result) :=
    Storage.cleanup_orphaned_temp_files settings (now w) (fs w) in
  let w1 := with_fs files w in
  match Storage.get_storage_stats settings du with
  | inl error => (w1, StatsError error orphaned_result)
  | inr stats =>
      let percent_used_ := Storage.percent_used stats in
      match Storage.status stats with
      | Storage.Emergency =>
          delete_older_than 0 Storage.Emergency percent_used_ orphaned_result w1
      | Storage.Critical =>
          delete_older_than 1 Storage.Critical percent_used_ orphaned_result w1
      | Storage.Warning =>
          delete_older_than 3 Storage.Warning percent_used_ orphaned_result w1
      | Storage.Healthy => cleanup_expired_files w1
      end
  end.

End WithSettings.

(** The number of days each branch of [cleanup_by_storage_state] passes
    to [get_old_file_hashes]; the Healthy branch follows the expiration
    dates instead. *)
Definition days_of (status_ : Storage.StorageStatus) : option Z :=
  match status_ with
  | Storage.Emergency => Some 0%Z
  | Storage.Critical => Some 1%Z
  | Storage.Warning => Some 3%Z
  | Storage.Healthy => None
  end.

End Cleanup.

(** ** app/api.py *)

Module Api.

(** The uploaded file as the framework hands it over; [size] is absent
    when the framework does not provide it. *)
Record UploadFile := {
  filename : option string;
  file : option (list byte);
  content_type : option string;
  size : option Z
}.

(** What one request meets outside the state: the answer of the
    disk-usage probe and the behaviour of the disk and of the timer. *)
Record Request := {
  disk_usage : result Storage.DiskUsage;
  upload_io : Storage.UploadIO
}.

(** The handlers at the end of [upload_file]: an [HTTPException] goes
    through, anything else becomes a 500. *)
Definition reraise (e : Exn) : Exn :=
  match e with
  | HTTPException _ _ => e
  | _ => HTTPException 500 ("Internal server error: " +:+ str_exn e)
  end.

Section WithSettings.
Context `{Platform} (settings : Settings).

(** Third step of the deduplication: a new Pending job and its queue
    entry. *)
Definition submit_pending (w : World) (name file_hash file_path : string)
      (file_size : nat) : World * result FileUploadResponse :=
  let '(job_id, w2) := uuid4 w in
  match Database.create_job settings (now w2) (jobs w2) job_id file_hash name
          file_size PENDING None with
  | inl e => (w2, inl (reraise e))
  | inr (rows, job_data) =>
      let w3 := with_jobs rows w2 in
      let w4 := with_cache (Cache.set_job_status settings (now w3) (cache w3)
                              job_id job_data) w3 in
      let '(q, _) := Queue.publish_job (now w4) (queue w4) job_id file_hash
                       file_path file_size in
      (with_queue q w4,
       inr {| r_job_id := job_id;
              r_status := PENDING;
              r_message := "File uploaded successfully, processing started";
              r_deduplication := false;
              r_results := None |})
  end.

(** A new job that is Completed from the start, with known results. *)
Definition submit_completed (w : World) (name file_hash : string) (file_size : nat)
      (results_ : Results) (message : string) : World * result FileUploadResponse :=
  let '(job_id, w2) := uuid4 w in
  match Database.create_job settings (now w2) (jobs w2) job_id file_hash name
          file_size COMPLETED (Some results_) with
  | inl e => (w2, inl (reraise e))
  | inr (rows, _) =>
      (with_jobs rows w2,
       inr {| r_job_id := job_id;
              r_status := COMPLETED;
              r_message := message;
              r_deduplication := true;
              r_results := Some results_ |})
  end.

(** Second step: the most recent Completed job with this fingerprint. *)
Definition submit_from_database (w : World) (name file_hash file_path : string)
      (file_size : nat) : World * result FileUploadResponse :=
  match Database.get_completed_job_by_hash (jobs w) file_hash with
  | Some existing_job =>
      match Database.results existing_job with
      | Some results_ =>
          if truthy results_ then
            let w1 := with_cache (Cache.set_file_results settings (now w) (cache w)
                                    file_hash results_ file_size) w in
            submit_completed w1 name file_hash file_size results_
              "File already scanned, instant results from database"
          else submit_pending w name file_hash file_path file_size
      | None => submit_pending w name file_hash file_path file_size
      end
  | None => submit_pending w name file_hash file_path file_size
  end.

(** First step: the cached results of this fingerprint. *)
Definition submit (w : World) (name file_hash file_path : string)
      (file_size : nat) : World * result FileUploadResponse :=
  match Cache.get_file_results (now w) (cache w) file_hash with
  | Some cached_results =>
      if truthy (Cache.fe_results cached_results) then
        submit_completed w name file_hash file_size
          (Cache.fe_results cached_results)
          "File already scanned, instant results from cache"
      else submit_from_database w name file_hash file_path file_size
  | None => submit_from_database w name file_hash file_path file_size
  end.

(** The content type of the file only decides on a line of the log and
    is not looked at here. *)
Definition upload_file (req : Request) (w : World) (f : UploadFile)
    : World * result FileUploadResponse :=
  match filename f with
  | None | Some EmptyString => (w, inl (HTTPException 400 "No file provided"))
  | Some name =>
      match file f with
      | None => (w, inl (HTTPException 400 "File does not exist or is empty"))
      | Some file_data =>
          let '(can_upload, storage_msg) :=
            Storage.should_accept_upload settings (disk_usage req) in
          if negb can_upload then (w, inl (HTTPException 507 storage_msg))
          else
            let content_length := default 0%Z (size f) in
            if (max_upload_size settings <? content_length)%Z then
              (w, inl (HTTPException 413
                         ("File too large. Maximum size: "
                          +:+ pretty (max_file_size_mb settings) +:+ "MB")))
            else
              let '(tmp, w0) := uuid4 w in
              match Storage.calculate_hash_and_save settings (upload_io req)
                      (now w0) tmp (fs w0) file_data name with
              | (files, inl e) => (with_fs files w0, inl (reraise e))
              | (files, inr (file_hash, file_size, file_path)) =>
                  submit (with_fs files w0) name file_hash file_path file_size
              end
      end
  end.

(** [str(job_id)]: the 32 digits in groups of 8, 4, 4, 4 and 12. *)
Definition uuid_str (u : UUID) : string :=
  let hex := Storage.uuid_hex u in
  String.substring 0 8 hex +:+ "-" +:+ String.substring 8 4 hex
  +:+ "-" +:+ String.substring 12 4 hex +:+ "-" +:+ String.substring 16 4 hex
  +:+ "-" +:+ String.substring 20 12 hex.

(** The answer built from a cached entry. *)
Definition response_of_cache (cached_data : Cache.JobEntry) : JobStatusResponse :=
  {| s_job_id := Cache.je_job_id cached_data;
     s_status := Cache.je_status cached_data;
     s_original_filename := Cache.je_original_filename cached_data;
     s_file_size := Cache.je_file_size cached_data;
     s_results := Cache.je_results cached_data;
     s_error_message := Cache.je_error_message cached_data;
     s_created_at := Cache.je_created_at cached_data;
     s_updated_at := Cache.je_updated_at cached_data;
     s_completed_at := Cache.je_completed_at cached_data |}.

(** The answer built from a row of the table. *)
Definition response_of_row (job_data : Database.Job) : JobStatusResponse :=
  {| s_job_id := Database.job_id job_data;
     s_status := Database.status job_data;
     s_original_filename := Database.original_filename job_data;
     s_file_size := Database.file_size job_data;
     s_results := Database.results job_data;
     s_error_message := Database.error_message job_data;
     s_created_at := Database.created_at job_data;
     s_updated_at := Database.updated_at job_data;
     s_completed_at := Database.completed_at job_data |}.

Definition get_job_status (w : World) (job_id : UUID)
    : World * result JobStatusResponse :=
  match Cache.get_job_status (now w) (cache w) job_id with
  | Some cached_data => (w, inr (response_of_cache cached_data))
  | None =>
      match Database.get_job (jobs w) job_id with
      | None =>
          (w, inl (HTTPException 404 ("Job not found: " +:+ uuid_str job_id)))
      | Some job_data =>
          (with_cache (Cache.set_job_status settings (now w) (cache w)
                         job_id job_data) w,
           inr (response_of_row job_data))
      end
  end.

End WithSettings.

End Api.

(** ** Two uploads of the same content, one after the other *)

Module Scenario.

Section WithSettings.
Context `{Platform} (settings : Settings).

(** What happens to the job of a first upload before the second one: a
    job that was answered Pending has its queue entry, the last one
    published, processed by the worker; a job answered Completed is left
    alone. *)
Definition first_job_done (env : Worker.Environ) (w1 : World)
      (resp1 : FileUploadResponse) : World :=
  match r_status resp1 with
  | PENDING =>
      match last (Queue.entries (queue w1)) with
      | Some entry =>
          Worker.process_message settings env w1
            (length (Queue.entries (queue w1)) - 1) entry
      | None => w1
      end
  | _ => w1
  end.

End WithSettings.

(** How many entries of the stream carry the fingerprint [h]. *)
Definition published_for (h : string) (w : World) : nat :=
  length (List.filter (λ m, String.eqb (Queue.m_file_hash m) h)
            (Queue.entries (queue w))).




Definition from_database : string :=
  "File already scanned, instant results from database".

End Scenario.

(** ** Reading a scan result *)

Module Histogram.

(** The 26 keys, in the order of the dict comprehension. *)
Definition letters : list N := map N.of_nat (seq 65 26).



Definition is_ascii (b : byte) : bool := (Byte.to_N b <? 128)%N.

(** [sum(counts.values())] *)
Definition total (counts : Results) : nat := foldr (λ kv acc, kv.2 + acc) 0 counts.

(** Is the byte an ASCII letter, of either case? *)
Definition is_letter (b : byte) : bool :=
  let c := Byte.to_N b in
  ((65 <=? c)%N && (c <=? 90)%N) || ((97 <=? c)%N && (c <=? 122)%N).

End Histogram.

(** ** A concrete runtime

    An instance of [Platform] on which every definition evaluates: the
    digest of a byte string is its rendering in hexadecimal, so distinct
    contents have distinct digests; rounding is the identity; a float is
    shown as a fraction; bytes above 127 decode to nothing. *)
Module Demo.

Definition hex_of_byte (b : byte) : string :=
  String.string_of_list_ascii (rev (Py.hex_digits 2 (Byte.to_N b))).

Definition hex_of_bytes (bs : list byte) : string :=
  foldr (λ b acc, hex_of_byte b +:+ acc) "" bs.

Definition platform : Platform := {|
    sha256_hex := hex_of_bytes;
    py_round2 := λ q, q;
    py_str_float := λ q, pretty (Qnum q) +:+ "/" +:+ pretty (Z.pos (Qden q));
    utf8_decode_high := λ _, [];
    str_upper_high := λ c, [c]
  |}.

End Demo.

(** ** The example upload *)

Module Example.

Definition content : list byte := String.list_byte_of_string "AAAbbbCCC".

(** [{A: 3, B: 3, C: 3}] and 0 for the letters D to Z. *)
Definition scanned : Results :=
  [(65%N, 3); (66%N, 3); (67%N, 3)] ++ map (λ i, (N.of_nat i, 0)) (seq 68 23).


(** A sound disk and a timer that does not fire. *)
Definition sound : Storage.UploadIO :=
  {| Storage.io_timeout := false; Storage.io_media := λ bs, bs |}.


(** The volume that holds the example content at [/data/x]. *)
Definition volume : Storage.FS :=
  {[ "/data/x" := {| Storage.content := content; Storage.mtime := 0 |} ]}.

Definition no_keys : Cache.Keys :=
  {| Cache.job_keys := ∅; Cache.file_keys := ∅ |}.

(** The worker runs next to the API: no path translation applies. *)
Definition environ : Worker.Environ :=
  {| Worker.DOCKER_FILE_PATH := None; Worker.LOCAL_FILE_PATH := None |}.

(** A job row for the example content, created at time 0. *)
Definition job (id : UUID) (s : JobStatus) (r : option Results) : Database.Job :=
  {| Database.job_id := id;
     Database.file_hash := "414141626262434343";
     Database.original_filename := "a.txt";
     Database.file_size := 9;
     Database.status := s;
     Database.results := r;
     Database.error_message := None;
     Database.created_at := 0;
     Database.updated_at := 0;
     Database.completed_at := if Database.is_terminal s then Some 0%Z else None;
     Database.expires_at := 604800 |}.

(** The queue entry of job [id] for a file at [path]. *)
Definition message (id : UUID) (path : string) : Queue.ScanJobMessage :=
  {| Queue.m_job_id := id;
     Queue.m_file_hash := "414141626262434343";
     Queue.m_file_path := path;
     Queue.m_file_size := 9;
     Queue.m_timestamp := 0 |}.

(** Job 0 is Completed and its entry, handed out once, was never
    acknowledged: the group may hand it out again. *)
Definition redelivery : World :=
  {| now := 100; next_uuid := 1; fs := volume;
     jobs := [job 0 COMPLETED (Some scanned)];
     cache := no_keys;
     queue := {| Queue.entries := [message 0 "/data/x"];
                 Queue.last_delivered := 1;
                 Queue.pending := [0] |} |}.

(** Job 0 is Pending and its entry, not yet handed out, names a file
    that is not on the volume. *)
Definition missing_file : World :=
  {| now := 100; next_uuid := 1; fs := volume;
     jobs := [job 0 PENDING None];
     cache := no_keys;
     queue := {| Queue.entries := [message 0 "/data/gone"];
                 Queue.last_delivered := 0;
                 Queue.pending := [] |} |}.

(** Job 0 is Pending and its entry names the example file. *)
Definition fresh_entry : World :=
  {| now := 100; next_uuid := 1; fs := volume;
     jobs := [job 0 PENDING None];
     cache := no_keys;
     queue := {| Queue.entries := [message 0 "/data/x"];
                 Queue.last_delivered := 0;
                 Queue.pending := [] |} |}.

(** Where the example content is stored under the default settings. *)
Definition canonical : string :=
  "/tmp/file_scanner_data/files/41/41/414141626262434343".

(** One hour after the upload of the example content: its job, created
    at time 0, is Completed and the content is in place. *)
Definition recent_upload : World :=
  {| now := 3600; next_uuid := 2;
     fs := {[ canonical := {| Storage.content := content; Storage.mtime := 0 |} ]};
     jobs := [job 1 COMPLETED (Some scanned)];
     cache := no_keys;
     queue := {| Queue.entries := [message 1 canonical];
                 Queue.last_delivered := 1;
                 Queue.pending := [] |} |}.

(** 96 of 100 bytes used. *)
Definition disk_96 : Storage.DiskUsage :=
  {| Storage.total := 100; Storage.used := 96; Storage.free := 4 |}.

(** The default settings with an upload limit of four bytes. *)
Definition four_bytes_max : Settings :=
  {| file_storage_path := "/tmp/file_scanner_data/files";
     max_file_size_mb := 0;
     storage_warning_threshold := 85;
     storage_critical_threshold := 90;
     storage_emergency_threshold := 95;
     job_cache_ttl := 3600;
     file_cache_ttl := 86400;
     redis_stream_name := "scan_jobs";
     redis_consumer_group := "scanner_workers";
     max_upload_size := 4;
     file_retention_days := 7;
     cleanup_orphaned_files_hours := 1;
     upload_timeout_seconds := 300 |}.

(** The example content sent as [a.txt], with and without a size. *)
Definition upload (size_ : option Z) : Api.UploadFile :=
  {| Api.filename := Some "a.txt";
     Api.file := Some content;
     Api.content_type := Some "text/plain";
     Api.size := size_ |}.

(** A request that meets a disk half full, sound, and no timeout. *)
Definition calm : Api.Request :=
  {| Api.disk_usage := inr {| Storage.total := 100; Storage.used := 50;
                              Storage.free := 50 |};
     Api.upload_io := sound |}.

(** A request that meets a disk 96 percent full. *)
Definition crowded : Api.Request :=
  {| Api.disk_usage := inr disk_96; Api.upload_io := sound |}.

(** Nothing stored, no job, nothing cached or queued. *)
Definition blank : World :=
  {| now := 0; next_uuid := 0; fs := ∅; jobs := [];
     cache := no_keys;
     queue := {| Queue.entries := []; Queue.last_delivered := 0;
                 Queue.pending := [] |} |}.

End Example.

(** ** The life cycle of a job *)

Module Lifecycle.

(** The edges Pending to Processing, Processing to Completed and
    Processing to Failed. *)
Definition transition_allowed (a b : JobStatus) : bool :=
  match a, b with
  | PENDING, PROCESSING | PROCESSING, COMPLETED | PROCESSING, FAILED => true
  | _, _ => false
  end.

(** The status of job [id] in the table, if the row exists. *)
Definition status_of (w : World) (id : UUID) : option JobStatus :=
  Database.status <$> Database.get_job (jobs w) id.

Definition is_status (last : option JobStatus) (s : JobStatus) : bool :=
  match last with
  | Some l => JobStatus_eqb l s
  | None => false
  end.

(** The statuses job [id] goes through along a run, a repeated status
    (a statement that leaves the row alone) counted once. *)
Fixpoint statuses (id : UUID) (last : option JobStatus) (run : list World)
    : list JobStatus :=
  match run with
  | [] => []
  | w :: rest =>
      match status_of w id with
      | Some s =>
          if is_status last s then statuses id last rest
          else s :: statuses id (Some s) rest
      | None => statuses id last rest
      end
  end.

(** Does every step of the sequence follow an edge? *)
Fixpoint follows_edges (l : list JobStatus) : bool :=
  match l with
  | a :: rest =>
      match rest with
      | b :: _ => transition_allowed a b && follows_edges rest
      | [] => true
      end
  | [] => true
  end.

End Lifecycle.

(** ** What the operations keep *)

Module Invariant.

(** The primary key: no two rows share an identifier. *)
Definition keys_unique (rows : list Database.Job) : Prop :=
  NoDup (map Database.job_id rows).

(** The identifier generator is ahead of the table. *)
Definition ids_below (w : World) : Prop :=
  ∀ j, j ∈ jobs w → (Database.job_id j < next_uuid w)%nat.

(** Every row expires the configured number of days after its creation,
    as [create_job] sets it. *)
Definition dated (settings : Settings) (rows : list Database.Job) : Prop :=
  ∀ j, j ∈ rows →
       Database.expires_at j
       = (Database.created_at j + file_retention_days settings * 86400)%Z.



End Invariant.

(* ================================================================== *)
(** * Properties *)

Section StorageTier.
Context `{Platform} (settings : Settings).

Lemma get_storage_stats_error (du : result Storage.DiskUsage) :
  (∃ e, du = inl e) ∨ (∃ stat, du = inr stat ∧ Storage.total stat = 0%Z) ↔
  ∃ err, Storage.get_storage_stats settings du = inl err.
Proof.
  unfold Storage.get_storage_stats. split.
  - intros [[e ->] | (stat & -> & Hz)]; [eauto |].
    rewrite Hz. simpl. eauto.
  - intros [err Herr]. destruct du as [e | stat]; [eauto |].
    right. exists stat. split; [done |].
    destruct (Z.eqb_spec (Storage.total stat) 0); [done | discriminate].
Qed.

End StorageTier.

Section Admission.
Context `{Platform} (settings : Settings).




(** C10. When the statistics cannot be read, whatever the cause, the
    upload is accepted with reason "ok": the probe raising and a volume
    of total size zero are the two ways to get there, and neither
    consults a tier. *)
Theorem admission_fails_open (du : result Storage.DiskUsage) (err : string) :
  Storage.get_storage_stats settings du = inl err →
  Storage.should_accept_upload settings du = (true, "ok")
  ∧ ((∃ ex, du = inl ex)
     ∨ (∃ stat, du = inr stat ∧ Storage.total stat = 0%Z)).
Proof.
  intros Herr. split.
  - unfold Storage.should_accept_upload. by rewrite Herr.
  - apply (get_storage_stats_error settings du). eauto.
Qed.

End Admission.


Lemma admission_fails_open_witness :
  Storage.should_accept_upload (H := Demo.platform) get_settings
    (inl (OSError "No such file or directory")) = (true, "ok").
Proof.
  apply (admission_fails_open (H := Demo.platform) get_settings
           (inl (OSError "No such file or directory"))
           "No such file or directory" eq_refl).
Defined.

(** ** Chunked reading *)

Section Chunks.
Context {A : Type}.

Lemma read_chunks_concat (n : nat) :
  0 < n → ∀ fuel (data : list A),
    length data < fuel → concat (Py.read_chunks fuel n data) = data.
Proof.
  intros Hn. induction fuel as [| fuel IH]; intros data Hlen; [lia |].
  cbn [Py.read_chunks]. destruct (take n data) as [| a chunk] eqn:Htake.
  - destruct data as [| x data]; [done |].
    destruct n; [lia | discriminate].
  - cbn [concat]. rewrite IH.
    + rewrite <- Htake. apply take_drop.
    + rewrite length_drop.
      assert (length data ≠ 0) by (destruct data; [by rewrite take_nil in Htake | done]).
      lia.
Qed.

Lemma chunks_concat (n : nat) (data : list A) :
  0 < n → concat (Py.chunks n data) = data.
Proof. intros Hn. apply read_chunks_concat; [done | lia]. Qed.

Lemma fold_left_app_concat (chunks : list (list A)) (init : list A) :
  fold_left (λ acc chunk, acc ++ chunk) chunks init = init ++ concat chunks.
Proof.
  revert init. induction chunks as [| c chunks IH]; intros init; simpl.
  - by rewrite app_nil_r.
  - by rewrite IH, app_assoc.
Qed.

End Chunks.

(** ** The storage engine *)

Section StorageSave.
Context `{Platform} (settings : Settings).

Lemma chunk_size_pos : 0 < Storage.chunk_size.
Proof. unfold Storage.chunk_size. lia. Qed.

Lemma stream_to_temp_spec (chunks : list (list byte)) :
  Storage.stream_to_temp chunks
  = (concat chunks, length (concat chunks), concat chunks).
Proof.
  unfold Storage.stream_to_temp.
  enough (∀ sha n written,
    fold_left
      (λ '(sha, file_size, written) chunk,
         (sha ++ chunk, file_size + length chunk, written ++ chunk))
      chunks (sha, n, written)
    = (sha ++ concat chunks, n + length (concat chunks), written ++ concat chunks))
    as Hgen by apply (Hgen [] 0 []).
  induction chunks as [| c chunks IH]; intros sha n written; simpl.
  - by rewrite !app_nil_r, Nat.add_0_r.
  - rewrite IH, length_app, <- !app_assoc. f_equal. f_equal. lia.
Qed.

(** A temporary file never sits at a content-addressed location. *)
Lemma temp_path_ne_final (u : UUID) (filename file_hash : string) :
  Storage.temp_path_of settings u filename ≠ Storage._get_file_path settings file_hash.
Proof.
  unfold Storage.temp_path_of, Storage._get_file_path. intros Heq.
  apply String.app_inj in Heq. apply String.app_inj in Heq.
  revert Heq. generalize (Storage.uuid_hex u +:+ "_" +:+ filename).
  intros name Heq.
  destruct file_hash as [| c1 [| c2 [| c3 h]]];
    cbv [String.app String.append String.substring] in Heq;
    first [discriminate Heq | injection Heq; intros; discriminate].
Qed.

(** What a save does when the timer does not fire. *)
Lemma save_no_timeout (io : Storage.UploadIO) (now : Z) (tmp : UUID)
    (fs : Storage.FS) (data : list byte) (filename : string) :
  Storage.io_timeout io = false →
  Storage.calculate_hash_and_save settings io now tmp fs data filename
  = let file_hash := sha256_hex data in
    let final_path := Storage._get_file_path settings file_hash in
    let temp_path := Storage.temp_path_of settings tmp filename in
    match fs !! final_path with
    | Some _ => (delete temp_path fs, inr (file_hash, length data, final_path))
    | None =>
        if String.eqb (sha256_hex (Storage.io_media io data)) file_hash
        then (<[final_path := {| Storage.content := Storage.io_media io data;
                                 Storage.mtime := now |}]> (delete temp_path fs),
              inr (file_hash, length data, final_path))
        else (delete temp_path fs,
              inl (IOError "File corruption detected during upload"))
    end.
Proof.
  intros Hto. unfold Storage.calculate_hash_and_save.
  rewrite stream_to_temp_spec, chunks_concat by apply chunk_size_pos.
  rewrite Hto. cbv zeta.
  rewrite lookup_insert_ne by apply temp_path_ne_final.
  destruct (fs !! Storage._get_file_path settings (sha256_hex data)) eqn:Hfinal.
  - by rewrite delete_insert_eq.
  - unfold Storage._verify_file_integrity.
    rewrite lookup_insert_eq. cbn [Storage.content].
    rewrite fold_left_app_concat, chunks_concat by apply chunk_size_pos.
    cbn [app].
    destruct (String.eqb (sha256_hex (Storage.io_media io data)) (sha256_hex data)).
    + unfold Storage.shutil_move. rewrite lookup_insert_eq.
      by rewrite delete_insert_eq.
    + by rewrite !delete_insert_eq, delete_delete_eq.
Qed.



End StorageSave.

(** ** The scan *)

Section Scan.
Context `{Platform} (settings : Settings).

Lemma incr_keys (char : N) (counts : Results) :
  map fst (Worker.incr char counts) = map fst counts.
Proof.
  unfold Worker.incr. induction counts as [| kv counts IH]; [done |].
  cbn [map]. rewrite <- IH. by destruct (kv.1 =? char)%N.
Qed.

Lemma count_chunk_keys (chunk : list N) (counts : Results) :
  map fst (Worker.count_chunk counts chunk) = map fst counts.
Proof.
  unfold Worker.count_chunk. generalize (Worker.upper chunk). intros text.
  revert counts. induction text as [| c text IH]; intros counts; [done |].
  cbn [fold_left]. rewrite IH.
  destruct ((65 <=? c)%N && (c <=? 90)%N); [apply incr_keys | done].
Qed.

Lemma fold_count_chunk_keys (chunks : list (list N)) (counts : Results) :
  map fst (fold_left Worker.count_chunk chunks counts) = map fst counts.
Proof.
  revert counts. induction chunks as [| c chunks IH]; intros counts; [done |].
  cbn [fold_left]. rewrite IH. apply count_chunk_keys.
Qed.

(** Every scan result has exactly the keys A to Z, in order. *)
Lemma scan_file_keys (files : Storage.FS) (file_path : string) (r : Results) :
  Worker.scan_file files file_path = inr r → map fst r = Histogram.letters.
Proof.
  unfold Worker.scan_file. destruct (files !! file_path); [| discriminate].
  intros [= <-]. by rewrite fold_count_chunk_keys.
Qed.

Lemma upper_app (a b : list N) :
  Worker.upper (a ++ b) = Worker.upper a ++ Worker.upper b.
Proof. unfold Worker.upper. by rewrite map_app, concat_app. Qed.

Lemma count_chunk_app (a b : list N) (counts : Results) :
  Worker.count_chunk counts (a ++ b)
  = Worker.count_chunk (Worker.count_chunk counts a) b.
Proof. unfold Worker.count_chunk. by rewrite upper_app, fold_left_app. Qed.

(** Counting chunk by chunk is counting the whole text. *)
Lemma fold_count_chunk_concat (chunks : list (list N)) (counts : Results) :
  fold_left Worker.count_chunk chunks counts
  = Worker.count_chunk counts (concat chunks).
Proof.
  revert counts. induction chunks as [| c chunks IH]; intros counts; [done |].
  cbn [fold_left concat]. by rewrite IH, count_chunk_app.
Qed.

Lemma decode_ascii (bs : list byte) :
  forallb Histogram.is_ascii bs = true →
  Worker.decode bs = map Byte.to_N bs.
Proof.
  unfold Worker.decode. induction bs as [| b bs IH]; [done |].
  cbn [forallb Worker.decode_from map]. intros [Hb Hbs]%andb_prop.
  unfold Histogram.is_ascii in Hb. rewrite Hb. cbn [Worker.flush_high app].
  by rewrite IH.
Qed.





End Scan.

Section ScanExample.
Context `{Platform} (settings : Settings).



End ScanExample.





(** ** The worker *)

Section WorkerFacts.
Context `{Platform} (settings : Settings).

Lemma get_job_updated (now : Z) (rows : list Database.Job) (id id' : UUID)
    (s : JobStatus) (r : option Results) (e : option string) :
  Database.get_job
    (map (λ j, if Nat.eqb (Database.job_id j) id
               then Database.updated_row now s r e j else j) rows) id'
  = if Nat.eqb id' id
    then Database.updated_row now s r e <$> Database.get_job rows id'
    else Database.get_job rows id'.
Proof.
  unfold Database.get_job. induction rows as [| j rows IH].
  - cbn. by destruct (Nat.eqb id' id).
  - cbn [map List.find].
    destruct (Nat.eqb_spec (Database.job_id j) id) as [Hj | Hj]; cbn [Database.job_id Database.updated_row].
    + destruct (Nat.eqb_spec (Database.job_id j) id') as [Hj' | Hj'].
      * subst. by rewrite Nat.eqb_refl.
      * rewrite IH. done.
    + destruct (Nat.eqb_spec (Database.job_id j) id') as [Hj' | Hj'].
      * subst. by destruct (Nat.eqb_spec (Database.job_id j) id).
      * rewrite IH. done.
Qed.

(** The worker's update writes the status it is given, whatever the
    current one. *)
Lemma worker_update_status (w : World) (id : UUID) (s : JobStatus)
    (r : option Results) (e : option string) (j : Database.Job) :
  Database.get_job (jobs w) id = Some j →
  Database.get_job (jobs (Worker.update_job_status w id s r e)) id
  = Some (Database.updated_row (now w) s r e j).
Proof.
  intros Hj. unfold Worker.update_job_status. cbn [jobs with_cache with_jobs].
  by rewrite get_job_updated, Nat.eqb_refl, Hj.
Qed.

(** So does the update of [app/database.py]. *)
Lemma database_update_status (t : Z) (rows : list Database.Job) (id : UUID)
    (s : JobStatus) (r : option Results) (e : option string) (j : Database.Job) :
  Database.get_job rows id = Some j →
  Database.get_job (Database.update_job_status t rows id s r e).1 id
  = Some (Database.updated_row t s r e j).
Proof.
  intros Hj. unfold Database.update_job_status. cbn [fst].
  by rewrite get_job_updated, Nat.eqb_refl, Hj.
Qed.

Lemma scan_result_truthy (files : Storage.FS) (file_path : string) (r : Results) :
  Worker.scan_file files file_path = inr r → truthy r = true.
Proof.
  intros Hr%scan_file_keys. by destruct r.
Qed.

(** The statuses a delivery writes, in order. *)
Lemma delivery_statuses (env : Worker.Environ) (w : World) (message_id : nat)
    (message_data : Queue.ScanJobMessage) (j : Database.Job) :
  let id := Queue.m_job_id message_data in
  Database.get_job (jobs w) id = Some j →
  ∃ final, (final = COMPLETED ∨ final = FAILED) ∧
    Lifecycle.statuses id None
      (w :: Worker.process_message_trace settings env w message_id message_data)
    = Database.status j
      :: (if JobStatus_eqb (Database.status j) PROCESSING then [] else [PROCESSING])
      ++ [final].
Proof.
  intros id Hj. unfold Worker.process_message_trace. fold id.
  set (w1 := Worker.update_job_status w id PROCESSING None None).
  assert (H1 : Lifecycle.status_of w1 id = Some PROCESSING).
  { unfold Lifecycle.status_of, w1. by erewrite worker_update_status. }
  assert (H2 : Lifecycle.status_of (sleep 1 w1) id = Some PROCESSING) by exact H1.
  assert (Hj2 : ∃ j2, Database.get_job (jobs (sleep 1 w1)) id = Some j2).
  { eexists. exact (worker_update_status w id PROCESSING None None j Hj). }
  destruct Hj2 as [j2 Hj2].
  assert (H0 : Lifecycle.status_of w id = Some (Database.status j)).
  { unfold Lifecycle.status_of. by rewrite Hj. }
  destruct (Worker.scan_file (fs (sleep 1 w1)) _) as [e | r].
  - exists FAILED. split; [by right |].
    set (w3 := Worker.update_job_status (sleep 1 w1) id FAILED None _).
    assert (H3 : Lifecycle.status_of w3 id = Some FAILED).
    { unfold Lifecycle.status_of, w3. by erewrite worker_update_status. }
    cbn [Lifecycle.statuses]. rewrite H0, H1, H2, H3.
    cbn [Lifecycle.is_status].
    by destruct (Database.status j).
  - exists COMPLETED. split; [by left |].
    set (w3 := Worker.update_job_status (sleep 1 w1) id COMPLETED _ None).
    assert (H3 : Lifecycle.status_of w3 id = Some COMPLETED).
    { unfold Lifecycle.status_of, w3. by erewrite worker_update_status. }
    set (w4 := Worker.cache_results settings w3 _ _ _).
    assert (H4 : Lifecycle.status_of w4 id = Some COMPLETED) by exact H3.
    set (w5 := with_queue _ w4).
    assert (H5 : Lifecycle.status_of w5 id = Some COMPLETED) by exact H3.
    cbn [Lifecycle.statuses]. rewrite H0, H1, H2, H3, H4, H5.
    cbn [Lifecycle.is_status].
    by destruct (Database.status j).
Qed.

(** C4, as the code has it.  Both update operations write the status
    they are given without looking at the current one.  One delivery of a
    queue entry writes Processing and then Completed or Failed: for a job
    that is Pending when the entry is delivered the statuses it goes
    through are Pending, Processing, Completed or Pending, Processing,
    Failed, each step along an edge; for a job that is already Completed
    or Failed (an entry processed again) the first step goes back to
    Processing, which is not an edge. *)
Theorem delivery_follows_edges (env : Worker.Environ) (w : World)
    (message_id : nat) (message_data : Queue.ScanJobMessage) (j : Database.Job) :
  let id := Queue.m_job_id message_data in
  Database.get_job (jobs w) id = Some j →
  let run :=
    Lifecycle.statuses id None
      (w :: Worker.process_message_trace settings env w message_id message_data) in
  (∀ s r e, Lifecycle.status_of (Worker.update_job_status w id s r e) id = Some s) ∧
  (∀ s r e,
     Database.status
       <$> Database.get_job
             (Database.update_job_status (now w) (jobs w) id s r e).1 id
     = Some s) ∧
  (Database.status j = PENDING →
     (run = [PENDING; PROCESSING; COMPLETED] ∨ run = [PENDING; PROCESSING; FAILED])
     ∧ Lifecycle.follows_edges run = true) ∧
  (Database.status j = COMPLETED ∨ Database.status j = FAILED →
     (∃ final, run = [Database.status j; PROCESSING; final])
     ∧ Lifecycle.follows_edges run = false).
Proof.
  intros id Hj run.
  destruct (delivery_statuses env w message_id message_data j Hj)
    as (final & Hfinal & Hrun).
  fold id in Hrun. fold run in Hrun.
  split; [| split; [| split]].
  - intros s r e. unfold Lifecycle.status_of.
    by erewrite worker_update_status.
  - intros s r e. by erewrite database_update_status.
  - intros Hs. rewrite Hrun, Hs. cbn.
    destruct Hfinal as [-> | ->]; split; eauto.
  - intros Hs. rewrite Hrun. split.
    + exists final. by destruct Hs as [-> | ->].
    + destruct Hs as [-> | ->]; by destruct Hfinal as [-> | ->].
Qed.

Lemma process_message_last (env : Worker.Environ) (w : World) (message_id : nat)
    (message_data : Queue.ScanJobMessage) :
  let id := Queue.m_job_id message_data in
  let w2 := sleep 1 (Worker.update_job_status w id PROCESSING None None) in
  Worker.process_message settings env w message_id message_data
  = match Worker.scan_file (fs w)
            (Worker.translate settings env (Queue.m_file_path message_data)) with
    | inr r =>
        let w4 := Worker.cache_results settings
                    (Worker.update_job_status w2 id COMPLETED (Some r) None)
                    (Queue.m_file_hash message_data) r
                    (Queue.m_file_size message_data) in
        with_queue (Queue.xack (queue w4) message_id) w4
    | inl e => Worker.update_job_status w2 id FAILED None (Some (str_exn e))
    end.
Proof.
  unfold Worker.process_message, Worker.process_message_trace.
  change (fs (sleep 1 (Worker.update_job_status w (Queue.m_job_id message_data)
                         PROCESSING None None))) with (fs w).
  by destruct (Worker.scan_file (fs w) _).
Qed.

Lemma xack_not_pending (q : Queue.Stream) (message_id : nat) :
  message_id ∉ Queue.pending (Queue.xack q message_id).
Proof.
  unfold Queue.xack. cbn [Queue.pending].
  rewrite list_elem_of_In, filter_In. intros [_ Hne].
  by rewrite Nat.eqb_refl in Hne.
Qed.

(** C5, as the code has it.  When the scan of a consumed entry fails the
    job ends Failed with the text of the error, and the queue is left as
    it was: the entry is not acknowledged and stays pending in the group.
    When the scan succeeds the job ends Completed with the result and
    the entry is acknowledged.  A round of the loop whose read fails
    touches neither the jobs nor the queue. *)
Theorem failed_scan_is_not_acknowledged (env : Worker.Environ) (w : World)
    (message_id : nat) (message_data : Queue.ScanJobMessage) (j : Database.Job) :
  let id := Queue.m_job_id message_data in
  let file_path := Worker.translate settings env (Queue.m_file_path message_data) in
  let w' := Worker.process_message settings env w message_id message_data in
  Database.get_job (jobs w) id = Some j →
  (∀ e, Worker.scan_file (fs w) file_path = inl e →
     (∃ j', Database.get_job (jobs w') id = Some j'
            ∧ Database.status j' = FAILED
            ∧ Database.error_message j' = Some (str_exn e))
     ∧ queue w' = queue w
     ∧ (message_id ∈ Queue.pending (queue w) →
        message_id ∈ Queue.pending (queue w'))) ∧
  (∀ r, Worker.scan_file (fs w) file_path = inr r →
     (∃ j', Database.get_job (jobs w') id = Some j'
            ∧ Database.status j' = COMPLETED
            ∧ Database.results j' = Some r)
     ∧ message_id ∉ Queue.pending (queue w')) ∧
  (jobs (Worker.run_once settings env true w) = jobs w
   ∧ queue (Worker.run_once settings env true w) = queue w).
Proof.
  intros id file_path w' Hj.
  pose proof (worker_update_status w id PROCESSING None None j Hj) as Hj1.
  set (w2 := sleep 1 (Worker.update_job_status w id PROCESSING None None)) in *.
  change (jobs (Worker.update_job_status w id PROCESSING None None))
    with (jobs w2) in Hj1.
  split; [| split].
  - intros e He. unfold w'. rewrite process_message_last. fold id file_path.
    rewrite He. fold w2. split; [| split; [done | done]].
    eexists. split; [by apply worker_update_status |]. done.
  - intros r Hr. unfold w'. rewrite process_message_last. fold id file_path.
    rewrite Hr. fold w2. cbv zeta. split.
    + eexists. split.
      * change (jobs (with_queue _ _))
          with (jobs (Worker.update_job_status w2 id COMPLETED (Some r) None)).
        by apply worker_update_status.
      * split; [done |]. cbn [Database.results Database.updated_row].
        unfold Database.results_json. cbn [truthy_opt].
        by rewrite (scan_result_truthy _ _ _ Hr).
    + apply xack_not_pending.
  - done.
Qed.

End WorkerFacts.

(** C4 as stated fails: an entry processed again takes a Completed job
    back to Processing, and the update sets any status on any job. *)
Lemma status_edges_counterexample :
  Lifecycle.status_of Example.redelivery 0 = Some COMPLETED
  ∧ Lifecycle.statuses 0 None
      (Example.redelivery
       :: Worker.process_message_trace (H := Demo.platform) get_settings
            Example.environ Example.redelivery 0 (Example.message 0 "/data/x"))
    = [COMPLETED; PROCESSING; COMPLETED]
  ∧ Lifecycle.transition_allowed COMPLETED PROCESSING = false
  ∧ Lifecycle.status_of
      (Worker.update_job_status Example.redelivery 0 PENDING None None) 0
    = Some PENDING
  ∧ Lifecycle.transition_allowed COMPLETED PENDING = false.
Proof.
  repeat split; vm_compute; reflexivity.
Qed.

Lemma delivery_follows_edges_witness :
  Lifecycle.statuses 0 None
    (Example.fresh_entry
     :: Worker.process_message_trace (H := Demo.platform) get_settings
          Example.environ Example.fresh_entry 0 (Example.message 0 "/data/x"))
  = [PENDING; PROCESSING; COMPLETED].
Proof.
  destruct (delivery_follows_edges (H := Demo.platform) get_settings
              Example.environ Example.fresh_entry 0 (Example.message 0 "/data/x")
              (Example.job 0 PENDING None) eq_refl)
    as (_ & _ & Hpending & _).
  destruct (Hpending eq_refl) as [[Hrun | Hrun] _]; [exact Hrun |].
  vm_compute in Hrun. discriminate Hrun.
Defined.

(** C5 as stated fails: the entry of a failed scan is still pending. *)
Lemma failed_scan_counterexample :
  Queue.xreadgroup (queue Example.missing_file)
  = ({| Queue.entries := [Example.message 0 "/data/gone"];
        Queue.last_delivered := 1;
        Queue.pending := [0] |},
     Some (0, Example.message 0 "/data/gone"))
  ∧ Worker.scan_file (H := Demo.platform) (fs Example.missing_file) "/data/gone"
    = inl (FileNotFoundError "File not found: /data/gone")
  ∧ Lifecycle.status_of
      (Worker.run_once (H := Demo.platform) get_settings Example.environ false
         Example.missing_file) 0
    = Some FAILED
  ∧ Queue.pending
      (queue (Worker.run_once (H := Demo.platform) get_settings Example.environ
                false Example.missing_file))
    = [0].
Proof.
  repeat split; vm_compute; reflexivity.
Qed.

Lemma failed_scan_is_not_acknowledged_witness :
  queue (Worker.process_message (H := Demo.platform) get_settings Example.environ
           Example.missing_file 0 (Example.message 0 "/data/gone"))
  = queue Example.missing_file.
Proof.
  destruct (failed_scan_is_not_acknowledged (H := Demo.platform) get_settings
              Example.environ Example.missing_file 0 (Example.message 0 "/data/gone")
              (Example.job 0 PENDING None) eq_refl)
    as (Hfail & _ & _).
  apply (Hfail (FileNotFoundError "File not found: /data/gone")).
  vm_compute. reflexivity.
Defined.

(** ** Retention *)

Section Retention.
Context `{Platform} (settings : Settings).

Lemma delete_file_fs (files : Storage.FS) (file_hash : string) :
  (Storage.delete_file settings files file_hash).1
  = delete (Storage._get_file_path settings file_hash) files.
Proof.
  unfold Storage.delete_file.
  destruct (files !! Storage._get_file_path settings file_hash) eqn:Hp; [done |].
  cbn [fst]. symmetry. by apply delete_id.
Qed.

(** After [delete_files] the canonical locations of the listed
    fingerprints are vacant and every other path is as before. *)
Lemma delete_files_lookup (hashes : list string) (files : Storage.FS) (p : string) :
  (Storage.delete_files settings files hashes).1 !! p
  = if bool_decide (p ∈ map (Storage._get_file_path settings) hashes)
    then None else files !! p.
Proof.
  revert files. induction hashes as [| h hashes IH]; intros files.
  - cbn. by rewrite bool_decide_eq_false_2 by apply not_elem_of_nil.
  - cbn [Storage.delete_files map].
    pose proof (delete_file_fs files h) as Hd.
    destruct (Storage.delete_file settings files h) as [fs1 ok].
    cbn [fst] in Hd. subst fs1.
    specialize (IH (delete (Storage._get_file_path settings h) files)).
    destruct (Storage.delete_files settings _ hashes) as [fs2 n].
    cbn [fst] in *. rewrite IH.
    destruct (decide (p = Storage._get_file_path settings h)) as [-> | Hne].
    + rewrite lookup_delete_eq.
      rewrite (bool_decide_eq_true_2 (_ ∈ _ :: _)) by left.
      by case_bool_decide.
    + rewrite lookup_delete_ne by done.
      repeat case_bool_decide; try done; set_solver.
Qed.

Lemma get_old_file_hashes_elem (t : Z) (rows : list Database.Job) (days : Z)
    (h : string) :
  h ∈ Database.get_old_file_hashes t rows days
  ↔ ∃ j, j ∈ rows ∧ Database.file_hash j = h
         ∧ (Database.created_at j < t - 86400 * days)%Z.
Proof.
  unfold Database.get_old_file_hashes.
  rewrite elem_of_remove_dups, list_elem_of_In, in_map_iff.
  split.
  - intros (j & Hh & [Hin Hold]%filter_In). exists j.
    rewrite list_elem_of_In. by apply Z.ltb_lt in Hold.
  - intros (j & Hin & Hh & Hold). exists j. split; [done |].
    apply filter_In. rewrite <- list_elem_of_In. split; [done |].
    by apply Z.ltb_lt.
Qed.

(** The branch of a tier vacates the canonical location of every job
    created more than [days] days ago. *)
Lemma delete_older_than_vacates (days : Z) (st : Storage.StorageStatus) (pct : Q)
    (orph : Storage.OrphanReport) (w : World) (j : Database.Job) :
  j ∈ jobs w →
  (Database.created_at j < now w - 86400 * days)%Z →
  fs (Cleanup.delete_older_than settings days st pct orph w).1
    !! Storage._get_file_path settings (Database.file_hash j) = None.
Proof.
  intros Hin Hold. unfold Cleanup.delete_older_than.
  pose proof (delete_files_lookup
                (Database.get_old_file_hashes (now w) (jobs w) days) (fs w)
                (Storage._get_file_path settings (Database.file_hash j))) as Hl.
  destruct (Storage.delete_files settings (fs w) _) as [files deleted].
  cbn [fst fs with_fs] in *. rewrite Hl.
  rewrite bool_decide_eq_true_2; [done |].
  apply list_elem_of_fmap. exists (Database.file_hash j). split; [done |].
  apply get_old_file_hashes_elem. eauto.
Qed.

(** One cycle under pressure vacates the canonical location of every job
    older than the window of the measured tier: three days under
    Warning, one day under Critical, and zero days under Emergency, so
    that then the content of every job created before the cycle goes,
    however recent. *)
Lemma tier_cleanup_vacates (du : result Storage.DiskUsage)
    (stats : Storage.StorageStats) (w : World) (j : Database.Job) (days : Z) :
  Storage.get_storage_stats settings du = inr stats →
  Cleanup.days_of (Storage.status stats) = Some days →
  j ∈ jobs w →
  (Database.created_at j < now w - 86400 * days)%Z →
  fs (Cleanup.cleanup_by_storage_state settings du w).1
    !! Storage._get_file_path settings (Database.file_hash j) = None.
Proof.
  intros Hstats Htier Hin Hold. unfold Cleanup.cleanup_by_storage_state.
  destruct (Storage.cleanup_orphaned_temp_files settings (now w) (fs w))
    as [files orph].
  rewrite Hstats.
  destruct (Storage.status stats); cbn in Htier; [discriminate | ..];
    injection Htier as <-; by apply delete_older_than_vacates.
Qed.

End Retention.

(** C6 at an Emergency cleanup one hour after an upload.  The job is one
    hour old, well inside the 12 hours the docstring of
    [cleanup_by_storage_state] announces, its content is in place before
    the cycle, and the cycle deletes it: [get_old_file_hashes] is called
    with [days=0]. *)
Theorem emergency_cleanup_deletes_recent_content :
  (now Example.recent_upload
   - Database.created_at (Example.job 1%nat COMPLETED (Some Example.scanned))
   < 12 * 3600)%Z
  ∧ Storage._get_file_path get_settings "414141626262434343" = Example.canonical
  ∧ fs Example.recent_upload !! Example.canonical
    = Some {| Storage.content := Example.content; Storage.mtime := 0 |}
  ∧ Database.get_old_file_hashes (now Example.recent_upload)
      (jobs Example.recent_upload) 0
    = ["414141626262434343"]
  ∧ ∃ w' orph,
      Cleanup.cleanup_by_storage_state (H := Demo.platform) get_settings
        (inr Example.disk_96) Example.recent_upload
      = (w', Cleanup.TierReport Storage.Emergency 1 (9600 # 100) orph)
      ∧ fs w' !! Example.canonical = None.
Proof.
  split; [done |]. split; [reflexivity |]. split; [vm_compute; reflexivity |].
  split; [vm_compute; reflexivity |].
  eexists _, _. split.
  - vm_compute. reflexivity.
  - vm_compute. reflexivity.
Qed.

(** ** The upload *)

Section UploadSize.
Context `{Platform} (settings : Settings).

(** C9, as the code has it.  An upload whose declared size exceeds the
    configured maximum is rejected and leaves the state as it was: nothing
    is stored, no job is created, nothing is published.  The error is the
    size-limit error (413) when the file-name and file checks and the
    admission check, which run first, pass; otherwise it is theirs (400
    or 507). *)
Theorem oversized_upload_rejected (req : Api.Request) (w : World)
    (f : Api.UploadFile) (n : Z) :
  Api.size f = Some n →
  (max_upload_size settings < n)%Z →
  (∃ code detail,
     Api.upload_file settings req w f = (w, inl (HTTPException code detail))
     ∧ (code = 400 ∨ code = 507 ∨ code = 413)) ∧
  (∀ name file_data,
     Api.filename f = Some name → name ≠ "" →
     Api.file f = Some file_data →
     (Storage.should_accept_upload settings (Api.disk_usage req)).1 = true →
     Api.upload_file settings req w f
     = (w, inl (HTTPException 413
                  ("File too large. Maximum size: "
                   +:+ pretty (max_file_size_mb settings) +:+ "MB")))).
Proof.
  intros Hsize Hbig. apply Z.ltb_lt in Hbig.
  split.
  - unfold Api.upload_file.
    destruct (Api.filename f) as [[| c name] |];
      [do 2 eexists; split; [reflexivity | tauto] |
      | do 2 eexists; split; [reflexivity | tauto]].
    destruct (Api.file f) as [file_data |];
      [| do 2 eexists; split; [reflexivity | tauto]].
    destruct (Storage.should_accept_upload settings (Api.disk_usage req))
      as [[|] storage_msg]; cbn [negb];
      [| do 2 eexists; split; [reflexivity | tauto]].
    rewrite Hsize. cbn [default from_option id]. rewrite Hbig.
    do 2 eexists; split; [reflexivity | tauto].
  - intros name file_data Hname Hne Hfile Hok. unfold Api.upload_file.
    rewrite Hname, Hfile. destruct name as [| c name]; [done |].
    destruct (Storage.should_accept_upload settings (Api.disk_usage req))
      as [can_upload storage_msg].
    cbn [fst] in Hok. subst can_upload. cbn [negb].
    rewrite Hsize. cbn [default from_option id]. by rewrite Hbig.
Qed.

End UploadSize.

(** C9 as stated fails.  With a limit of four bytes, the nine bytes of
    the example sent without a declared size are stored, a Pending job is
    created and its entry is published.  Sent with their size declared
    while the disk is 96 percent full, they are refused with the capacity
    error, not with the size-limit error. *)
Lemma oversized_upload_counterexample :
  (max_upload_size Example.four_bytes_max
   < Z.of_nat (length Example.content))%Z
  ∧ (∃ w',
       Api.upload_file (H := Demo.platform) Example.four_bytes_max Example.calm
         Example.blank (Example.upload None)
       = (w', inr {| r_job_id := 1;
                     r_status := PENDING;
                     r_message := "File uploaded successfully, processing started";
                     r_deduplication := false;
                     r_results := None |})
       ∧ fs w' !! Example.canonical
         = Some {| Storage.content := Example.content; Storage.mtime := 0 |}
       ∧ length (jobs w') = 1
       ∧ Queue.entries (queue w') = [Example.message 1 Example.canonical])
  ∧ Api.upload_file (H := Demo.platform) Example.four_bytes_max Example.crowded
      Example.blank (Example.upload (Some 9%Z))
    = (Example.blank,
       inl (HTTPException 507
              "Storage critical: 9600/100% used. Uploads temporarily disabled.")).
Proof.
  split; [done |]. split.
  - eexists. split; [vm_compute; reflexivity |].
    repeat split; vm_compute; reflexivity.
  - vm_compute. reflexivity.
Qed.

Lemma oversized_upload_rejected_witness :
  Api.upload_file (H := Demo.platform) Example.four_bytes_max Example.calm
    Example.blank (Example.upload (Some 9%Z))
  = (Example.blank,
     inl (HTTPException 413 "File too large. Maximum size: 0MB")).
Proof.
  destruct (oversized_upload_rejected (H := Demo.platform) Example.four_bytes_max
              Example.calm Example.blank (Example.upload (Some 9%Z)) 9%Z
              eq_refl eq_refl) as [_ Hlimit].
  apply (Hlimit "a.txt" Example.content eq_refl); [discriminate | reflexivity..].
Defined.

(** ** Deduplication *)

Section Dedup.
Context `{Platform} (settings : Settings).

Lemma save_ok_inv (io : Storage.UploadIO) (t : Z) (tmp : UUID) (files files' : Storage.FS)
    (C : list byte) (name : string) (x : string * nat * string) :
  Storage.calculate_hash_and_save settings io t tmp files C name = (files', inr x) →
  Storage.io_timeout io = false
  ∧ x = (sha256_hex C, length C, Storage._get_file_path settings (sha256_hex C))
  ∧ is_Some (files' !! Storage._get_file_path settings (sha256_hex C)).
Proof.
  destruct (Storage.io_timeout io) eqn:Hto.
  - unfold Storage.calculate_hash_and_save.
    rewrite stream_to_temp_spec, Hto. discriminate.
  - rewrite save_no_timeout by done. cbv zeta.
    destruct (files !! Storage._get_file_path settings (sha256_hex C)) eqn:Hf.
    + intros [= <- <-]. split; [done |]. split; [done |].
      rewrite lookup_delete_ne by apply temp_path_ne_final. by rewrite Hf.
    + destruct (String.eqb _ _); [| discriminate].
      intros [= <- <-]. split; [done |]. split; [done |].
      rewrite lookup_insert_eq. eauto.
Qed.


Lemma create_job_inv (t : Z) (rows rows' : list Database.Job) (id : UUID)
    (h name : string) (size_ : nat) (s : JobStatus) (r : option Results)
    (row : Database.Job) :
  Database.create_job settings t rows id h name size_ s r = inr (rows', row) →
  row = Database.new_row settings t id h name size_ s r
  ∧ rows' = rows ++ [row]
  ∧ (String.length h ≤ 64)%nat.
Proof.
  unfold Database.create_job.
  destruct (existsb _ rows); [discriminate |].
  destruct (64 <? String.length h)%nat eqn:Hlen; [discriminate |].
  destruct (255 <? String.length name)%nat; [discriminate |].
  cbn [orb]. intros [= <- <-]. apply Nat.ltb_ge in Hlen. done.
Qed.


Lemma completed_row_iff (j : Database.Job) (h : string) :
  String.eqb (Database.file_hash j) h && JobStatus_eqb (Database.status j) COMPLETED
  = true
  ↔ Database.file_hash j = h ∧ Database.status j = COMPLETED.
Proof.
  rewrite andb_true_iff, String.eqb_eq.
  destruct (Database.status j); cbn; intuition congruence.
Qed.

Lemma first_by_completed_at_elem (rows : list Database.Job)
    (best : option Database.Job) (e : Database.Job) :
  Database.first_by_completed_at best rows = Some e → best = Some e ∨ e ∈ rows.
Proof.
  revert best. induction rows as [| j rows IH]; intros best Hbest; [by left |].
  cbn [Database.first_by_completed_at] in Hbest. destruct best as [b |].
  - apply IH in Hbest as [[= <-] | Hin]; [| right; by right].
    destruct (Database.sorts_before j b); [right; by left | by left].
  - apply IH in Hbest as [[= <-] | Hin]; right; [by left | by right].
Qed.

Lemma first_by_completed_at_some (rows : list Database.Job)
    (best : option Database.Job) :
  is_Some best ∨ rows ≠ [] → is_Some (Database.first_by_completed_at best rows).
Proof.
  revert best. induction rows as [| j rows IH]; intros best Hne.
  - by destruct Hne.
  - cbn [Database.first_by_completed_at]. destruct best; apply IH; left; eauto.
Qed.

(** The look-up by fingerprint answers with a Completed row of that
    fingerprint. *)
Lemma completed_by_hash_elem (rows : list Database.Job) (h : string)
    (e : Database.Job) :
  Database.get_completed_job_by_hash rows h = Some e →
  e ∈ rows ∧ Database.file_hash e = h ∧ Database.status e = COMPLETED.
Proof.
  unfold Database.get_completed_job_by_hash.
  intros [[=] | Hin]%first_by_completed_at_elem.
  apply list_elem_of_In, filter_In in Hin as [Hin Hrow].
  apply completed_row_iff in Hrow. by rewrite list_elem_of_In.
Qed.

(** It answers whenever there is such a row. *)
Lemma completed_by_hash_some (rows : list Database.Job) (h : string)
    (j : Database.Job) :
  j ∈ rows → Database.file_hash j = h → Database.status j = COMPLETED →
  is_Some (Database.get_completed_job_by_hash rows h).
Proof.
  intros Hin Hh Hs. unfold Database.get_completed_job_by_hash.
  apply first_by_completed_at_some. right.
  assert (j ∈ List.filter
                (λ j, String.eqb (Database.file_hash j) h
                      && JobStatus_eqb (Database.status j) COMPLETED) rows) as Hj.
  { apply list_elem_of_In, filter_In. rewrite <- list_elem_of_In.
    split; [done |]. by apply completed_row_iff. }
  intros Hnil. rewrite Hnil in Hj. by apply not_elem_of_nil in Hj.
Qed.

End Dedup.

Section Submit.
Context `{Platform} (settings : Settings).


Lemma get_job_snoc (rows : list Database.Job) (row : Database.Job) (u : UUID) :
  (∀ j, j ∈ rows → Database.job_id j < u) →
  Database.job_id row = u →
  Database.get_job (rows ++ [row]) u = Some row.
Proof.
  intros Hids Hrow. unfold Database.get_job.
  induction rows as [| j rows IH].
  - cbn. by rewrite Hrow, Nat.eqb_refl.
  - cbn [app List.find].
    assert (Database.job_id j < u) as Hlt by (apply Hids; by left).
    destruct (Nat.eqb_spec (Database.job_id j) u); [lia |].
    apply IH. intros j' Hj'. apply Hids. by right.
Qed.


End Submit.

Section TwoUploads.
Context `{Platform} (settings : Settings).

(** An upload that is answered went through the save and reached the
    deduplication with the content in place. *)
Lemma upload_answered (req : Api.Request) (w w1 : World) (f : Api.UploadFile)
    (C : list byte) (resp : FileUploadResponse) :
  Api.file f = Some C →
  Api.upload_file settings req w f = (w1, inr resp) →
  ∃ name files,
    is_Some (files !! Storage._get_file_path settings (sha256_hex C))
    ∧ Api.submit settings (with_fs files (with_next_uuid (S (next_uuid w)) w))
        name (sha256_hex C) (Storage._get_file_path settings (sha256_hex C))
        (length C)
      = (w1, inr resp).
Proof.
  intros Hfile. unfold Api.upload_file. rewrite Hfile.
  destruct (Api.filename f) as [[| c name] |]; [discriminate | | discriminate].
  destruct (Storage.should_accept_upload settings (Api.disk_usage req))
    as [[|] storage_msg]; cbn [negb]; [| discriminate].
  destruct (_ <? _)%Z; [discriminate |].
  unfold uuid4.
  destruct (Storage.calculate_hash_and_save settings _ _ _ _ _ _)
    as [files [e | [[file_hash file_size] file_path]]] eqn:Hsave; [discriminate |].
  apply save_ok_inv in Hsave as (_ & [= -> -> ->] & Hfinal).
  intros Hsubmit. eauto.
Qed.







End TwoUploads.


(** The same two uploads two days apart: the cached result has expired
    and the table answers. *)
Example duplicate_upload_after_cache_expiry :
  ∃ w2,
    Api.upload_file (H := Demo.platform) get_settings Example.calm
      (sleep 172800
         (Scenario.first_job_done (H := Demo.platform) get_settings Example.environ
            (Api.upload_file (H := Demo.platform) get_settings Example.calm
               Example.blank (Example.upload None)).1
            {| r_job_id := 1; r_status := PENDING;
               r_message := "File uploaded successfully, processing started";
               r_deduplication := false; r_results := None |}))
      (Example.upload (Some 9%Z))
    = (w2, inr {| r_job_id := 3; r_status := COMPLETED;
                  r_message := Scenario.from_database;
                  r_deduplication := true;
                  r_results := Some Example.scanned |})
    ∧ Scenario.published_for "414141626262434343" w2 = 1.
Proof.
  eexists. split; vm_compute; reflexivity.
Qed.

(* ================================================================== *)
(** * Further properties of the storage engine *)

Section StorageEngine.
Context `{Platform} (settings : Settings).

(** X1. Whatever the outcome of a save (commit, storage-level duplicate,
    corruption or timeout), its temporary file is gone afterwards, no
    path other than the temporary and the canonical one has changed, and
    content that was already at the canonical location is still there,
    untouched. *)
Theorem save_frame (io : Storage.UploadIO) (t : Z) (tmp : UUID)
    (files : Storage.FS) (data : list byte) (name : string) :
  let files' := (Storage.calculate_hash_and_save settings io t tmp files data name).1 in
  let temp_path := Storage.temp_path_of settings tmp name in
  let final_path := Storage._get_file_path settings (sha256_hex data) in
  files' !! temp_path = None
  ∧ (∀ p, p ≠ temp_path → p ≠ final_path → files' !! p = files !! p)
  ∧ (∀ f, files !! final_path = Some f → files' !! final_path = Some f).
Proof.
  intros files' temp_path final_path.
  assert (Hne : temp_path ≠ final_path) by apply temp_path_ne_final.
  assert (Hdel : delete temp_path files !! temp_path = None
                 ∧ (∀ p, p ≠ temp_path → p ≠ final_path →
                         delete temp_path files !! p = files !! p)
                 ∧ (∀ f, files !! final_path = Some f →
                         delete temp_path files !! final_path = Some f)).
  { split; [apply lookup_delete_eq |]. split.
    - intros p Hp _. by rewrite lookup_delete_ne.
    - intros f Hf. by rewrite lookup_delete_ne. }
  unfold files'. destruct (Storage.io_timeout io) eqn:Hto.
  - unfold Storage.calculate_hash_and_save.
    rewrite stream_to_temp_spec, Hto. exact Hdel.
  - rewrite save_no_timeout by done. cbv zeta. fold final_path temp_path.
    destruct (files !! final_path) as [f0 |] eqn:Hf0; [exact Hdel |].
    destruct (String.eqb _ _); [| exact Hdel].
    cbn [fst]. split; [| split].
    + rewrite lookup_insert_ne by done. apply lookup_delete_eq.
    + intros p Hp Hp'. rewrite lookup_insert_ne by done.
      by rewrite lookup_delete_ne.
    + intros f Hf. congruence.
Qed.

(** X2. A save that succeeds on a vacant canonical location has committed,
    under the path derived from the fingerprint, bytes whose digest is
    that fingerprint, even on a medium that alters what is written; the
    size it reports is the number of bytes received. *)
Theorem save_commits_verified (io : Storage.UploadIO) (t : Z) (tmp : UUID)
    (files files' : Storage.FS) (data : list byte) (name h p : string) (n : nat) :
  Storage.calculate_hash_and_save settings io t tmp files data name
    = (files', inr (h, n, p)) →
  files !! Storage._get_file_path settings (sha256_hex data) = None →
  h = sha256_hex data ∧ n = length data ∧ p = Storage._get_file_path settings h
  ∧ ∃ f, files' !! p = Some f
         ∧ sha256_hex (Storage.content f) = h
         ∧ Storage.content f = Storage.io_media io data
         ∧ Storage.mtime f = t.
Proof.
  intros Hsave Hvacant.
  pose proof (save_ok_inv settings _ _ _ _ _ _ _ _ Hsave) as (Hto & [= -> -> ->] & _).
  rewrite save_no_timeout in Hsave by done. cbv zeta in Hsave.
  rewrite Hvacant in Hsave.
  destruct (String.eqb _ _) eqn:Heq; [| discriminate].
  apply String.eqb_eq in Heq. injection Hsave as <-.
  do 3 (split; [done |]). eexists. split; [apply lookup_insert_eq |]. done.
Qed.

(** X3. Save, look up, delete: after a successful save the fingerprint
    exists in storage; deleting it answers [True], after which it does
    not exist, a second delete answers [False], and no other path is
    affected by the deletion. *)
Theorem save_exists_delete (io : Storage.UploadIO) (t : Z) (tmp : UUID)
    (files files' : Storage.FS) (data : list byte) (name h p : string) (n : nat) :
  Storage.calculate_hash_and_save settings io t tmp files data name
    = (files', inr (h, n, p)) →
  Storage.file_exists settings files' h = true
  ∧ ∃ files'',
      Storage.delete_file settings files' h = (files'', true)
      ∧ Storage.file_exists settings files'' h = false
      ∧ Storage.delete_file settings files'' h = (files'', false)
      ∧ (∀ q, q ≠ p → files'' !! q = files' !! q).
Proof.
  intros Hsave.
  pose proof (save_ok_inv settings _ _ _ _ _ _ _ _ Hsave)
    as (_ & [= -> -> ->] & [f Hf]).
  unfold Storage.file_exists, Storage.delete_file. rewrite Hf.
  split; [by apply bool_decide_eq_true_2 |].
  eexists. split; [reflexivity |].
  rewrite lookup_delete_eq.
  split; [apply bool_decide_eq_false_2; by intros [? ?] |].
  split; [done |].
  intros q Hq. by rewrite lookup_delete_ne.
Qed.

Lemma delete_files_count (hashes : list string) (files : Storage.FS) :
  size files
  = size (Storage.delete_files settings files hashes).1
    + (Storage.delete_files settings files hashes).2.
Proof.
  revert files. induction hashes as [| h hashes IH]; intros files.
  - cbn. lia.
  - cbn [Storage.delete_files]. unfold Storage.delete_file.
    destruct (files !! Storage._get_file_path settings h) as [f |] eqn:Hf.
    + specialize (IH (delete (Storage._get_file_path settings h) files)).
      destruct (Storage.delete_files settings _ hashes) as [fs2 k].
      cbn [fst snd] in *.
      rewrite map_size_delete_Some in IH by eauto.
      assert (size files ≠ 0).
      { intros ->%map_size_empty_inv. by rewrite lookup_empty in Hf. }
      lia.
    + specialize (IH files).
      destruct (Storage.delete_files settings files hashes) as [fs2 k].
      cbn [fst snd] in *. lia.
Qed.

Lemma delete_files_nothing (hashes : list string) (files : Storage.FS) :
  (∀ h, h ∈ hashes → files !! Storage._get_file_path settings h = None) →
  Storage.delete_files settings files hashes = (files, 0).
Proof.
  induction hashes as [| h hashes IH]; intros Hnone; [done |].
  cbn [Storage.delete_files]. unfold Storage.delete_file.
  rewrite Hnone by left.
  rewrite IH; [done |]. intros h' Hh'. apply Hnone. by right.
Qed.

(** X4. [delete_files] reports exactly as many deletions as files left the
    volume; afterwards the canonical locations of the listed
    fingerprints are vacant and every other path is as before, and
    deleting the same list again deletes nothing. *)
Theorem delete_files_accounting (hashes : list string) (files : Storage.FS) :
  let files' := (Storage.delete_files settings files hashes).1 in
  let deleted := (Storage.delete_files settings files hashes).2 in
  size files = size files' + deleted
  ∧ (∀ p, files' !! p
          = if bool_decide (p ∈ map (Storage._get_file_path settings) hashes)
            then None else files !! p)
  ∧ Storage.delete_files settings files' hashes = (files', 0).
Proof.
  intros files' deleted.
  split; [apply delete_files_count |].
  split; [intros p; apply delete_files_lookup |].
  apply delete_files_nothing. intros h Hh. unfold files'.
  rewrite delete_files_lookup. rewrite bool_decide_eq_true_2; [done |].
  apply list_elem_of_fmap. eauto.
Qed.

End StorageEngine.

Lemma save_commits_verified_witness :
  ∃ files' f,
    Storage.calculate_hash_and_save (H := Demo.platform) get_settings
      Example.sound 7 0 (∅ : Storage.FS) Example.content "a.txt"
    = (files', inr ("414141626262434343", 9, Example.canonical))
    ∧ files' !! Example.canonical = Some f
    ∧ Storage.content f = Example.content.
Proof.
  destruct (Storage.calculate_hash_and_save (H := Demo.platform) get_settings
              Example.sound 7 0 (∅ : Storage.FS) Example.content "a.txt")
    as [files' outcome] eqn:Hsave.
  assert (Hout : outcome = inr ("414141626262434343", 9, Example.canonical)).
  { apply (f_equal snd) in Hsave. vm_compute in Hsave. by subst outcome. }
  subst outcome.
  destruct (save_commits_verified (H := Demo.platform) get_settings
              Example.sound 7 0 (∅ : Storage.FS) files'
              Example.content "a.txt" "414141626262434343" Example.canonical 9
              Hsave (lookup_empty _))
    as (_ & _ & _ & f & Hf & _ & Hc & _).
  exists files', f. split; [reflexivity |]. split; [exact Hf | exact Hc].
Defined.

Lemma save_exists_delete_witness :
  ∃ files',
    Storage.calculate_hash_and_save (H := Demo.platform) get_settings
      Example.sound 7 0 (∅ : Storage.FS) Example.content "a.txt"
    = (files', inr ("414141626262434343", 9, Example.canonical))
    ∧ Storage.file_exists get_settings files' "414141626262434343" = true.
Proof.
  destruct (Storage.calculate_hash_and_save (H := Demo.platform) get_settings
              Example.sound 7 0 (∅ : Storage.FS) Example.content "a.txt")
    as [files' outcome] eqn:Hsave.
  assert (Hout : outcome = inr ("414141626262434343", 9, Example.canonical)).
  { apply (f_equal snd) in Hsave. vm_compute in Hsave. by subst outcome. }
  subst outcome. exists files'. split; [reflexivity |].
  apply (save_exists_delete (H := Demo.platform) get_settings
           Example.sound 7 0 (∅ : Storage.FS) files'
           Example.content "a.txt" "414141626262434343" Example.canonical 9 Hsave).
Defined.

Section OrphanCleanup.
Context `{Platform} (settings : Settings).

Lemma strip_prefix_app (p q s : string) :
  Py.strip_prefix (p +:+ q) (p +:+ s) = Py.strip_prefix q s.
Proof.
  induction p as [| a p IH]; [reflexivity |].
  change (String a p +:+ q) with (String a (p +:+ q)).
  change (String a p +:+ s) with (String a (p +:+ s)).
  cbn [Py.strip_prefix]. by rewrite Ascii.eqb_refl.
Qed.

(** A content-addressed location is never matched by the pattern of the
    temporary files. *)
Lemma canonical_is_not_temp (file_hash : string) :
  Storage.is_temp_file settings (Storage._get_file_path settings file_hash) = false.
Proof.
  unfold Storage.is_temp_file, Storage._get_file_path.
  rewrite strip_prefix_app.
  destruct file_hash as [| c1 [| c2 [| c3 h]]];
    cbv [String.append String.substring Py.strip_prefix];
    repeat match goal with
           | |- context [Ascii.eqb ?a ?b] =>
               destruct (Ascii.eqb a b) eqn:?; try discriminate
           end;
    done.
Qed.

(** X5. The cleanup of orphaned temporary files removes exactly the files
    matched by [temp_*] that are older than the configured number of
    hours.  Committed content is never touched, a file of any name that
    is not older than the threshold survives, and the count it reports is
    the number of files that left the volume. *)
Theorem orphan_cleanup_is_safe (t : Z) (files : Storage.FS) :
  let files' := (Storage.cleanup_orphaned_temp_files settings t files).1 in
  let report := (Storage.cleanup_orphaned_temp_files settings t files).2 in
  (∀ p, files' !! p
        = match files !! p with
          | Some f => if Storage.is_orphan settings t p f then None else Some f
          | None => None
          end)
  ∧ (∀ file_hash,
       files' !! Storage._get_file_path settings file_hash
       = files !! Storage._get_file_path settings file_hash)
  ∧ (∀ p f, files !! p = Some f →
            (t - Storage.mtime f ≤ cleanup_orphaned_files_hours settings * 3600)%Z →
            files' !! p = Some f)
  ∧ size files = size files' + Storage.deleted_count report.
Proof.
  intros files' report.
  assert (Hlookup : ∀ p, files' !! p
        = match files !! p with
          | Some f => if Storage.is_orphan settings t p f then None else Some f
          | None => None
          end).
  { intros p. unfold files', Storage.cleanup_orphaned_temp_files. cbn [fst].
    rewrite map_lookup_filter. destruct (files !! p) as [f |]; [| done].
    cbn. destruct (Storage.is_orphan settings t p f); cbn.
    - by rewrite option_guard_False by tauto.
    - by rewrite option_guard_True by tauto. }
  split; [exact Hlookup |]. split; [| split].
  - intros file_hash. rewrite Hlookup.
    destruct (files !! _) as [f |]; [| done].
    unfold Storage.is_orphan. by rewrite canonical_is_not_temp.
  - intros p f Hf Hage. rewrite Hlookup, Hf. unfold Storage.is_orphan.
    replace (_ <? _)%Z with false; [by rewrite andb_false_r |].
    symmetry. by apply Z.ltb_ge.
  - unfold files', report, Storage.cleanup_orphaned_temp_files.
    cbn [fst snd Storage.deleted_count].
    rewrite <- (map_filter_union_complement
                  (λ kv, Is_true (Storage.is_orphan settings t kv.1 kv.2)) files)
      at 1.
    rewrite map_size_disj_union by apply map_disjoint_filter_complement.
    lia.
Qed.

End OrphanCleanup.

Lemma orphan_cleanup_is_safe_witness :
  (Storage.cleanup_orphaned_temp_files get_settings 3600 Example.volume).1
    !! "/data/x"
  = Some {| Storage.content := Example.content; Storage.mtime := 0 |}.
Proof.
  destruct (orphan_cleanup_is_safe get_settings 3600 Example.volume)
    as (_ & _ & Hfresh & _).
  apply Hfresh; [vm_compute; reflexivity | vm_compute; discriminate].
Defined.

Section TierOrder.
Context `{Platform} (settings : Settings).

(** X6. The tier never decreases when the percentage grows, whatever the
    configured thresholds; so a disk usage that is refused stays refused
    at every higher usage. *)
Theorem tier_is_monotone (p q : Q) :
  (p <= q)%Q →
  (Storage.severity (Storage._get_storage_status settings p)
   ≤ Storage.severity (Storage._get_storage_status settings q))%nat
  ∧ (Storage._get_storage_status settings p = Storage.Emergency →
     Storage._get_storage_status settings q = Storage.Emergency).
Proof.
  intros Hpq.
  assert (Hup : ∀ x, Qle_bool x p = true → Qle_bool x q = true).
  { intros x Hx. apply Qle_bool_iff. apply Qle_bool_iff in Hx.
    by apply Qle_trans with p. }
  unfold Storage._get_storage_status.
  destruct (Qle_bool (Storage.emergency_at settings) p) eqn:He;
    [rewrite (Hup _ He); cbn; split; [lia | done] |].
  destruct (Qle_bool (Storage.critical_at settings) p) eqn:Hc;
    [rewrite (Hup _ Hc);
     destruct (Qle_bool (Storage.emergency_at settings) q); cbn;
     split; (lia || done) |].
  destruct (Qle_bool (Storage.warning_at settings) p) eqn:Hw;
    [rewrite (Hup _ Hw);
     destruct (Qle_bool (Storage.emergency_at settings) q),
              (Qle_bool (Storage.critical_at settings) q); cbn;
     split; (lia || done) |].
  cbn. split; [lia | done].
Qed.

End TierOrder.

Lemma tier_is_monotone_witness :
  (Storage.severity (Storage._get_storage_status get_settings (50 # 1))
   ≤ Storage.severity (Storage._get_storage_status get_settings (96 # 1)))%nat.
Proof.
  apply (tier_is_monotone get_settings (50 # 1) (96 # 1)).
  vm_compute. discriminate.
Defined.

(* ================================================================== *)
(** * Further properties of the record store *)

Section RecordStore.
Context (settings : Settings).

Lemma get_job_elem (rows : list Database.Job) (id : UUID) (j : Database.Job) :
  Database.get_job rows id = Some j → j ∈ rows ∧ Database.job_id j = id.
Proof.
  unfold Database.get_job. intros [Hin Hid%Nat.eqb_eq]%find_some.
  by rewrite list_elem_of_In.
Qed.

Lemma get_job_none (rows : list Database.Job) (id : UUID) :
  Database.get_job rows id = None ↔ id ∉ map Database.job_id rows.
Proof.
  unfold Database.get_job. induction rows as [| j rows IH].
  - cbn. split; [intros _; apply not_elem_of_nil | done].
  - cbn [List.find map]. rewrite not_elem_of_cons.
    destruct (Nat.eqb_spec (Database.job_id j) id) as [Heq | Hne].
    + split; [discriminate | intros [Hne _]; congruence].
    + rewrite IH. split; [intros ?; split; [congruence | done] | by intros [_ ?]].
Qed.



Lemma updated_rows_ids (t : Z) (rows : list Database.Job) (id : UUID)
    (s : JobStatus) (r : option Results) (e : option string) :
  map Database.job_id
    (map (λ j, if Nat.eqb (Database.job_id j) id
               then Database.updated_row t s r e j else j) rows)
  = map Database.job_id rows.
Proof.
  induction rows as [| j rows IH]; [done |].
  cbn [map]. rewrite IH. by destruct (Nat.eqb (Database.job_id j) id).
Qed.

(** X8. On a table whose identifiers are unique, [update_job_status]
    answers [True] exactly when the job exists; for an unknown
    identifier the table is left as it is.  It never changes
    another row, nor the identifier, fingerprint, file name, size,
    creation and expiration times of the row it updates.  It writes the
    status and the error message it is given (an absent message clears
    the earlier one), keeps the earlier results when it is given none,
    and keeps the earlier completion time when the new status is not
    terminal. *)
Theorem update_job_status_effect (t : Z) (rows : list Database.Job) (id : UUID)
    (s : JobStatus) (r : option Results) (e : option string) :
  Invariant.keys_unique rows →
  let rows' := (Database.update_job_status t rows id s r e).1 in
  let ok := (Database.update_job_status t rows id s r e).2 in
  (ok = true ↔ is_Some (Database.get_job rows id))
  ∧ Invariant.keys_unique rows'
  ∧ (Database.get_job rows id = None → rows' = rows)
  ∧ (∀ id', id' ≠ id → Database.get_job rows' id' = Database.get_job rows id')
  ∧ map Database.job_id rows' = map Database.job_id rows
  ∧ (Invariant.dated settings rows → Invariant.dated settings rows')
  ∧ (∀ j, Database.get_job rows id = Some j →
       ∃ j', Database.get_job rows' id = Some j'
         ∧ Database.job_id j' = id
         ∧ Database.file_hash j' = Database.file_hash j
         ∧ Database.original_filename j' = Database.original_filename j
         ∧ Database.file_size j' = Database.file_size j
         ∧ Database.created_at j' = Database.created_at j
         ∧ Database.expires_at j' = Database.expires_at j
         ∧ Database.status j' = s
         ∧ Database.error_message j' = e
         ∧ Database.updated_at j' = t
         ∧ (truthy_opt r = true → Database.results j' = r)
         ∧ (truthy_opt r = false → Database.results j' = Database.results j)
         ∧ Database.completed_at j'
           = if Database.is_terminal s then Some t else Database.completed_at j).
Proof.
  intros Hkeys rows' ok. unfold rows', ok, Database.update_job_status.
  cbn [fst snd].
  split; [| split; [| split; [| split; [| split; [| split]]]]].
  - rewrite existsb_exists. split.
    + intros (j & Hin & Hid). destruct (Database.get_job rows id) eqn:Hg; [eauto |].
      apply get_job_none in Hg. apply Nat.eqb_eq in Hid. exfalso. apply Hg.
      apply list_elem_of_fmap. exists j. by rewrite list_elem_of_In.
    + intros [j (Hin & Hid)%get_job_elem]. exists j.
      rewrite <- list_elem_of_In. split; [done | by apply Nat.eqb_eq].
  - unfold Invariant.keys_unique in *. by rewrite updated_rows_ids.
  - intros Hnone. apply get_job_none in Hnone. clear Hkeys.
    induction rows as [| j rows IH]; [done |].
    cbn [map] in *. apply not_elem_of_cons in Hnone as [Hne Hnone].
    rewrite IH by done.
    by destruct (Nat.eqb_spec (Database.job_id j) id).
  - intros id' Hid'. rewrite get_job_updated.
    by destruct (Nat.eqb_spec id' id).
  - apply updated_rows_ids.
  - intros Hdated j' (j & -> & Hj)%list_elem_of_fmap.
    destruct (Nat.eqb (Database.job_id j) id); exact (Hdated j Hj).
  - intros j Hj. eexists. split.
    { rewrite get_job_updated, Nat.eqb_refl, Hj. reflexivity. }
    apply get_job_elem in Hj as [_ Hid].
    cbn [Database.updated_row Database.job_id Database.file_hash
           Database.original_filename Database.file_size Database.created_at
           Database.expires_at Database.status Database.error_message
           Database.updated_at Database.results Database.completed_at].
    do 9 (split; [done |]).
    unfold Database.results_json.
    split; [intros Hr; rewrite Hr; by destruct r |].
    split; [intros Hr; by rewrite Hr |].
    by destruct (Database.is_terminal s).
Qed.

Lemma filter_sublist {A} (f : A → bool) (l : list A) :
  List.filter f l `sublist_of` l.
Proof.
  induction l as [| a l IH]; [done |]. cbn [List.filter].
  destruct (f a); [by apply sublist_skip | by apply sublist_cons].
Qed.

Lemma delete_expired_jobs_elem (t : Z) (rows : list Database.Job)
    (j : Database.Job) :
  j ∈ (Database.delete_expired_jobs t rows).1
  ↔ j ∈ rows ∧ (t ≤ Database.expires_at j)%Z.
Proof.
  unfold Database.delete_expired_jobs. cbn [fst].
  by rewrite !list_elem_of_In, filter_In, negb_true_iff, Z.ltb_ge.
Qed.

Lemma delete_expired_jobs_length (t : Z) (rows : list Database.Job) :
  length rows
  = (length (Database.delete_expired_jobs t rows).1
     + (Database.delete_expired_jobs t rows).2)%nat.
Proof.
  unfold Database.delete_expired_jobs. cbn [fst snd].
  induction rows as [| j rows IH]; [done |].
  cbn [List.filter]. destruct (Database.expires_at j <? t)%Z;
    cbn [negb length]; lia.
Qed.

(** X9. [delete_expired_jobs] removes exactly the rows whose expiration lies
    before the clock and reports their number; the rows that stay keep
    their order, the primary key stays a key, and a second run at the
    same time removes nothing. *)
Theorem delete_expired_jobs_accounting (t : Z) (rows : list Database.Job) :
  let rows' := (Database.delete_expired_jobs t rows).1 in
  let deleted := (Database.delete_expired_jobs t rows).2 in
  length rows = (length rows' + deleted)%nat
  ∧ (∀ j, j ∈ rows' ↔ j ∈ rows ∧ (t ≤ Database.expires_at j)%Z)
  ∧ rows' `sublist_of` rows
  ∧ (Invariant.keys_unique rows → Invariant.keys_unique rows')
  ∧ Database.delete_expired_jobs t rows' = (rows', 0).
Proof.
  intros rows' deleted. subst rows' deleted.
  split; [apply delete_expired_jobs_length |].
  split; [intros j; apply delete_expired_jobs_elem |].
  unfold Database.delete_expired_jobs. cbn [fst snd].
  split; [| split].
  - apply filter_sublist.
  - unfold Invariant.keys_unique. intros Hnd.
    eapply sublist_NoDup; [exact Hnd |].
    apply (fmap_sublist Database.job_id), filter_sublist.
  - f_equal.
    + induction rows as [| j rows IH]; [done |]. cbn [List.filter].
      destruct (negb (Database.expires_at j <? t)%Z) eqn:Hj; [| done].
      cbn [List.filter]. by rewrite Hj, IH.
    + induction rows as [| j rows IH]; [done |]. cbn [List.filter].
      destruct (Database.expires_at j <? t)%Z eqn:Hj; [done |].
      cbn [negb List.filter]. by rewrite Hj.
Qed.

(** X10. The fingerprints selected for a window are pairwise distinct, and a
    longer window selects a subset of what a shorter one selects: what
    Warning would delete, Critical deletes too, and what Critical would
    delete, Emergency deletes too. *)
Theorem old_file_hashes_nest (t : Z) (rows : list Database.Job) (d1 d2 : Z) :
  (d1 ≤ d2)%Z →
  NoDup (Database.get_old_file_hashes t rows d1)
  ∧ Database.get_old_file_hashes t rows d2 ⊆ Database.get_old_file_hashes t rows d1.
Proof.
  intros Hd. split; [apply NoDup_remove_dups |].
  intros h (j & Hin & Hh & Hold)%get_old_file_hashes_elem.
  apply get_old_file_hashes_elem. exists j. split; [done |]. split; [done | lia].
Qed.

Lemma sorts_before_trans (a b c : Database.Job) :
  Database.sorts_before a b = true → Database.sorts_before b c = true →
  Database.sorts_before a c = true.
Proof.
  unfold Database.sorts_before.
  destruct (Database.completed_at a), (Database.completed_at b),
    (Database.completed_at c); try done.
  rewrite !Z.ltb_lt. lia.
Qed.

Lemma first_by_completed_at_best (rows : list Database.Job)
    (best : option Database.Job) (e : Database.Job) :
  Database.first_by_completed_at best rows = Some e →
  (∀ b, best = Some b → Database.sorts_before b e = false)
  ∧ (∀ j, j ∈ rows → Database.sorts_before j e = false).
Proof.
  assert (Hirr : ∀ x, Database.sorts_before x x = false).
  { intros x. unfold Database.sorts_before.
    destruct (Database.completed_at x); [apply Z.ltb_irrefl | done]. }
  revert best. induction rows as [| j rows IH]; intros best Hbest.
  - cbn in Hbest. subst best. split; [by intros b [= ->] |].
    intros j Hj. by apply not_elem_of_nil in Hj.
  - cbn [Database.first_by_completed_at] in Hbest. destruct best as [b |].
    + apply IH in Hbest as [Hb Hrows].
      destruct (Database.sorts_before j b) eqn:Hjb.
      * specialize (Hb j eq_refl). split.
        -- intros b' [= <-].
           destruct (Database.sorts_before b e) eqn:Hbe; [| done].
           by rewrite (sorts_before_trans j b e) in Hb.
        -- intros j' [-> | Hj']%elem_of_cons; [done | by apply Hrows].
      * specialize (Hb b eq_refl). split; [by intros b' [= <-] |].
        intros j' [-> | Hj']%elem_of_cons; [| by apply Hrows].
        destruct (Database.sorts_before j e) eqn:Hje; [| done].
        destruct (Database.sorts_before e b) eqn:Heb.
        -- by rewrite (sorts_before_trans j e b) in Hjb.
        -- (* [b] and [e] have the same completion time *)
           unfold Database.sorts_before in *.
           destruct (Database.completed_at j), (Database.completed_at e),
             (Database.completed_at b); try done.
           rewrite ?Z.ltb_lt, ?Z.ltb_ge in *. lia.
    + apply IH in Hbest as [Hb Hrows]. split; [done |].
      intros j' [-> | Hj']%elem_of_cons; [by apply Hb | by apply Hrows].
Qed.

(** X11. The look-up used for deduplication answers with a Completed job of
    the fingerprint such that no Completed job of that fingerprint comes
    before it in the descending order of completion times (a job without
    completion time first); it answers nothing exactly when there is no
    Completed job of the fingerprint. *)
Theorem completed_job_by_hash_is_latest (rows : list Database.Job) (h : string) :
  match Database.get_completed_job_by_hash rows h with
  | Some e =>
      e ∈ rows ∧ Database.file_hash e = h ∧ Database.status e = COMPLETED
      ∧ ∀ j, j ∈ rows → Database.file_hash j = h →
             Database.status j = COMPLETED → Database.sorts_before j e = false
  | None =>
      ∀ j, j ∈ rows → Database.file_hash j = h → Database.status j ≠ COMPLETED
  end.
Proof.
  destruct (Database.get_completed_job_by_hash rows h) as [e |] eqn:He.
  - pose proof (completed_by_hash_elem _ _ _ He) as (Hin & Hh & Hs).
    do 3 (split; [done |]). intros j Hj Hjh Hjs.
    unfold Database.get_completed_job_by_hash in He.
    apply first_by_completed_at_best in He as [_ Hbest]. apply Hbest.
    apply list_elem_of_In, filter_In. rewrite <- list_elem_of_In.
    split; [done |]. by apply completed_row_iff.
  - intros j Hj Hjh Hjs.
    destruct (completed_by_hash_some rows h j Hj Hjh Hjs) as [e' He'].
    congruence.
Qed.

End RecordStore.

Lemma update_job_status_effect_witness :
  (Database.update_job_status 100 (jobs Example.fresh_entry) 0 PROCESSING
     None None).2 = true.
Proof.
  apply (update_job_status_effect get_settings 100 (jobs Example.fresh_entry) 0
           PROCESSING None None).
  - apply NoDup_singleton.
  - by eexists.
Defined.

Lemma old_file_hashes_nest_witness :
  Database.get_old_file_hashes 3600 (jobs Example.recent_upload) 3
  ⊆ Database.get_old_file_hashes 3600 (jobs Example.recent_upload) 0.
Proof.
  apply (old_file_hashes_nest 3600 (jobs Example.recent_upload) 0 3).
  lia.
Defined.


(* ================================================================== *)
(** * Further properties of the cache *)

Section CacheEntries.
Context (settings : Settings).

(** X12. With a positive lifetime, a cached scan result is read back under
    its fingerprint until its lifetime has passed and not after; storing
    it changes no other fingerprint's entry and no cached job status. *)
Theorem file_results_round_trip (t t' : Z) (c : Cache.Keys) (h : string)
    (r : Results) (n : nat) :
  (0 < file_cache_ttl settings)%Z →
  let c' := Cache.set_file_results settings t c h r n in
  Cache.get_file_results t' c' h
  = (if (t' <? t + file_cache_ttl settings)%Z
     then Some {| Cache.fe_file_hash := h; Cache.fe_results := r;
                  Cache.fe_file_size := n |}
     else None)
  ∧ (∀ h', h' ≠ h → Cache.get_file_results t' c' h' = Cache.get_file_results t' c h')
  ∧ (∀ id, Cache.get_job_status t' c' id = Cache.get_job_status t' c id).
Proof.
  intros _. cbn zeta. unfold Cache.get_file_results, Cache.get_job_status,
    Cache.set_file_results. cbn [Cache.file_keys Cache.job_keys].
  split; [by rewrite lookup_insert_eq |].
  split; [| done]. intros h' Hh'. by rewrite lookup_insert_ne.
Qed.

(** X13. With a positive lifetime, a cached job status is read back with the
    columns of the row until its lifetime has passed; after
    [invalidate_job] it is gone at once, while the cached status of every
    other job and every cached scan result stay as they were. *)
Theorem job_status_round_trip (t t' : Z) (c : Cache.Keys) (id : UUID)
    (row : Database.Job) :
  (0 < job_cache_ttl settings)%Z →
  let c' := Cache.set_job_status settings t c id row in
  (match Cache.get_job_status t' c' id with
   | Some e =>
       (t' < t + job_cache_ttl settings)%Z
       ∧ Cache.je_job_id e = Database.job_id row
       ∧ Cache.je_status e = Database.status row
       ∧ Cache.je_results e = Database.results row
       ∧ Cache.je_error_message e = Database.error_message row
   | None => (t + job_cache_ttl settings ≤ t')%Z
   end)
  ∧ Cache.get_job_status t' (Cache.invalidate_job c' id) id = None
  ∧ (∀ id', id' ≠ id →
       Cache.get_job_status t' (Cache.invalidate_job c' id) id'
       = Cache.get_job_status t' c id')
  ∧ (∀ h, Cache.get_file_results t' (Cache.invalidate_job c' id) h
          = Cache.get_file_results t' c h).
Proof.
  intros _. cbn zeta. unfold Cache.get_file_results, Cache.get_job_status,
    Cache.set_job_status, Cache.invalidate_job.
  cbn [Cache.file_keys Cache.job_keys].
  split.
  { rewrite lookup_insert_eq. cbn [Cache.live].
    destruct (Z.ltb_spec t' (t + job_cache_ttl settings)); [| done].
    by cbn. }
  split; [by rewrite lookup_delete_eq |].
  split; [| done]. intros id' Hid'.
  by rewrite lookup_delete_ne, lookup_insert_ne.
Qed.

End CacheEntries.

Lemma file_results_round_trip_witness :
  Cache.get_file_results 3600
    (Cache.set_file_results get_settings 0 Example.no_keys
       "414141626262434343" Example.scanned 9) "414141626262434343"
  = Some {| Cache.fe_file_hash := "414141626262434343";
            Cache.fe_results := Example.scanned;
            Cache.fe_file_size := 9 |}.
Proof.
  destruct (file_results_round_trip get_settings 0 3600 Example.no_keys
              "414141626262434343" Example.scanned 9 eq_refl) as (Hread & _).
  exact Hread.
Defined.

Lemma job_status_round_trip_witness :
  Cache.get_job_status 10
    (Cache.invalidate_job
       (Cache.set_job_status get_settings 0 Example.no_keys 0
          (Example.job 0 PENDING None)) 0) 0
  = None.
Proof.
  destruct (job_status_round_trip get_settings 0 10 Example.no_keys 0
              (Example.job 0 PENDING None) eq_refl) as (_ & Hgone & _).
  exact Hgone.
Defined.

(* ================================================================== *)
(** * Further properties of the worker *)

Section WorkerFrame.
Context `{Platform} (settings : Settings).

Lemma worker_update_ids (w : World) (id : UUID) (s : JobStatus)
    (r : option Results) (e : option string) :
  map Database.job_id (jobs (Worker.update_job_status w id s r e))
  = map Database.job_id (jobs w).
Proof. apply updated_rows_ids. Qed.

Lemma worker_update_other (w : World) (id id' : UUID) (s : JobStatus)
    (r : option Results) (e : option string) :
  id' ≠ id →
  Database.get_job (jobs (Worker.update_job_status w id s r e)) id'
  = Database.get_job (jobs w) id'.
Proof.
  intros Hne. unfold Worker.update_job_status. cbn [jobs with_cache with_jobs].
  rewrite get_job_updated. by destruct (Nat.eqb_spec id' id).
Qed.

Lemma process_message_effect (env : Worker.Environ) (w : World)
    (message_id : nat) (message_data : Queue.ScanJobMessage) :
  let w' := Worker.process_message settings env w message_id message_data in
  fs w' = fs w
  ∧ next_uuid w' = next_uuid w
  ∧ now w' = (now w + 1)%Z
  ∧ Queue.entries (queue w') = Queue.entries (queue w)
  ∧ Queue.last_delivered (queue w') = Queue.last_delivered (queue w)
  ∧ (∀ i, i ∈ Queue.pending (queue w') → i ∈ Queue.pending (queue w))
  ∧ map Database.job_id (jobs w') = map Database.job_id (jobs w)
  ∧ (∀ id, id ≠ Queue.m_job_id message_data →
       Database.get_job (jobs w') id = Database.get_job (jobs w) id)
  ∧ Cache.job_keys (cache w')
    = delete (Queue.m_job_id message_data) (Cache.job_keys (cache w))
  ∧ (∀ h, h ≠ Queue.m_file_hash message_data →
       Cache.file_keys (cache w') !! h = Cache.file_keys (cache w) !! h).
Proof.
  cbn zeta. unfold Worker.process_message, Worker.process_message_trace.
  destruct (Worker.scan_file _ _) as [e | r];
    cbn [List.last];
    repeat split;
    try reflexivity;
    cbn [jobs cache queue sleep with_now with_queue with_cache
           Worker.cache_results];
    try (intros id Hid;
         repeat ((rewrite worker_update_other by done)
                 || cbn [jobs sleep with_now]);
         reflexivity);
    try (repeat (rewrite worker_update_ids || cbn [jobs sleep with_now]);
         reflexivity);
    try (unfold Worker.update_job_status, Cache.invalidate_job;
         cbn [jobs cache queue sleep with_now with_queue with_cache with_jobs
                Cache.job_keys Cache.file_keys];
         first [ by rewrite !delete_delete_eq
               | intros h Hh; by rewrite ?lookup_insert_ne ]);
    try (intros i Hi; cbn in Hi;
         first [ exact Hi
               | apply list_elem_of_In, filter_In in Hi as [Hi _];
                 by apply list_elem_of_In ]).
Qed.

(** X14. Processing a message takes one second of the clock and touches
    neither the stored files, nor the source of identifiers, nor the
    entries of the stream and the position of the group; nothing becomes
    pending.  In the table only the row of the message's job can change
    and no row is added or removed.  The cached status of the job is
    dropped, that of every other job is kept, and none but the cached
    results of the message's fingerprint can change. *)
Theorem process_message_frame (env : Worker.Environ) (w : World)
    (message_id : nat) (message_data : Queue.ScanJobMessage) :
  let w' := Worker.process_message settings env w message_id message_data in
  fs w' = fs w
  ∧ next_uuid w' = next_uuid w
  ∧ now w' = (now w + 1)%Z
  ∧ Queue.entries (queue w') = Queue.entries (queue w)
  ∧ Queue.last_delivered (queue w') = Queue.last_delivered (queue w)
  ∧ (∀ i, i ∈ Queue.pending (queue w') → i ∈ Queue.pending (queue w))
  ∧ map Database.job_id (jobs w') = map Database.job_id (jobs w)
  ∧ (∀ id, id ≠ Queue.m_job_id message_data →
       Database.get_job (jobs w') id = Database.get_job (jobs w) id)
  ∧ Cache.job_keys (cache w')
    = delete (Queue.m_job_id message_data) (Cache.job_keys (cache w))
  ∧ (∀ h, h ≠ Queue.m_file_hash message_data →
       Cache.file_keys (cache w') !! h = Cache.file_keys (cache w) !! h).
Proof. apply process_message_effect. Qed.

(** X15. One round of the worker's loop hands out at most the next entry of
    the stream: the files and the source of identifiers are untouched,
    no entry is added to or removed from the stream, the position of the
    group advances by at most one, no row is added or removed, and the
    round contains a sleep, so the clock advances.  A round that finds
    every entry already handed out changes nothing else. *)
Theorem run_once_frame (env : Worker.Environ) (read_error : bool) (w : World) :
  let w' := Worker.run_once settings env read_error w in
  fs w' = fs w
  ∧ next_uuid w' = next_uuid w
  ∧ (now w < now w')%Z
  ∧ Queue.entries (queue w') = Queue.entries (queue w)
  ∧ (Queue.last_delivered (queue w) ≤ Queue.last_delivered (queue w')
     ≤ S (Queue.last_delivered (queue w)))%nat
  ∧ map Database.job_id (jobs w') = map Database.job_id (jobs w)
  ∧ (read_error = false →
     Queue.last_delivered (queue w) = length (Queue.entries (queue w)) →
     jobs w' = jobs w ∧ cache w' = cache w ∧ queue w' = queue w).
Proof.
  cbn zeta. unfold Worker.run_once. destruct read_error.
  { cbn. repeat split; (lia || discriminate || done). }
  unfold Queue.xreadgroup.
  destruct (Queue.entries (queue w) !! Queue.last_delivered (queue w))
    as [m |] eqn:Hm.
  - pose proof (process_message_effect env
                  (with_queue {| Queue.entries := Queue.entries (queue w);
                                 Queue.last_delivered := S (Queue.last_delivered (queue w));
                                 Queue.pending := Queue.pending (queue w)
                                                  ++ [Queue.last_delivered (queue w)] |} w)
                  (Queue.last_delivered (queue w)) m) as Hf.
    cbn zeta in Hf.
    destruct Hf as (Hfs & Hu & Hnow & Hent & Hlast & _ & Hids & _).
    cbn [fs next_uuid now queue jobs with_queue Queue.entries
           Queue.last_delivered] in *.
    rewrite Hfs, Hu, Hnow, Hent, Hlast, Hids.
    split_and!; try done; try lia.
    intros _ Hall. apply lookup_lt_Some in Hm. lia.
  - cbn. repeat split; (lia || done).
Qed.

End WorkerFrame.

(* ================================================================== *)
(** * Further properties of the cleanup service *)

Section CleanupService.
Context `{Platform} (settings : Settings).

Lemma orphan_cleanup_subset (t : Z) (files : Storage.FS) (p : string)
    (f : Storage.File) :
  (Storage.cleanup_orphaned_temp_files settings t files).1 !! p = Some f →
  files !! p = Some f.
Proof.
  unfold Storage.cleanup_orphaned_temp_files. cbn [fst].
  by intros [? _]%map_lookup_filter_Some.
Qed.

Lemma delete_files_subset (hashes : list string) (files : Storage.FS)
    (p : string) (f : Storage.File) :
  (Storage.delete_files settings files hashes).1 !! p = Some f →
  files !! p = Some f.
Proof.
  rewrite (delete_files_lookup settings). by case_bool_decide.
Qed.

(** X16. When no row expires later than the retention after its creation (a
    row of [create_job] expires exactly then), the expiration-based
    cleanup never deletes a stored file: the expired rows are deleted
    first, and the fingerprints to delete are then looked for among the
    rows that are left, none of which is older than the retention.  The
    report counts the deleted rows and no file. *)
Theorem expired_cleanup_keeps_every_file (w : World) :
  (∀ j, j ∈ jobs w →
     (Database.expires_at j
      ≤ Database.created_at j + file_retention_days settings * 86400)%Z) →
  let w' := (Cleanup.cleanup_expired_files settings w).1 in
  fs w' = fs w
  ∧ (Cleanup.cleanup_expired_files settings w).2
    = Cleanup.ExpiredReport (length (jobs w) - length (jobs w')) 0 (now w)
  ∧ (∀ j, j ∈ jobs w' ↔ j ∈ jobs w ∧ (now w ≤ Database.expires_at j)%Z).
Proof.
  intros Hdated. cbn zeta. unfold Cleanup.cleanup_expired_files.
  pose proof (delete_expired_jobs_length (now w) (jobs w)) as Hlen.
  pose proof (delete_expired_jobs_elem (now w) (jobs w)) as Hrows.
  destruct (Database.delete_expired_jobs (now w) (jobs w)) as [rows deleted].
  cbn [fst snd] in *. cbn [now jobs fs with_jobs].
  assert (Hnone : Database.get_old_file_hashes (now w) rows
                    (file_retention_days settings) = []).
  { destruct (Database.get_old_file_hashes (now w) rows
                (file_retention_days settings)) as [| h hs] eqn:Hh; [done |].
    assert (Hin : h ∈ Database.get_old_file_hashes (now w) rows
                        (file_retention_days settings))
      by (rewrite Hh; left).
    apply get_old_file_hashes_elem in Hin as (j & Hj & _ & Hold).
    apply Hrows in Hj as [Hj Hexp]. specialize (Hdated j Hj). lia. }
  rewrite Hnone. cbn [Storage.delete_files fs with_fs jobs fst snd now].
  split; [done |]. split; [| done]. cbn [jobs with_jobs]. f_equal. lia.
Qed.

Lemma cleanup_cycle_effect (du : result Storage.DiskUsage) (w : World) :
  let w' := (Cleanup.cleanup_by_storage_state settings du w).1 in
  cache w' = cache w
  ∧ queue w' = queue w
  ∧ now w' = now w
  ∧ next_uuid w' = next_uuid w
  ∧ (∀ p f, fs w' !! p = Some f → fs w !! p = Some f)
  ∧ jobs w' `sublist_of` jobs w
  ∧ match Storage.get_storage_stats settings du with
    | inl _ =>
        jobs w' = jobs w
        ∧ fs w' = (Storage.cleanup_orphaned_temp_files settings (now w) (fs w)).1
    | inr stats =>
        Storage.status stats ≠ Storage.Healthy → jobs w' = jobs w
    end.
Proof.
  cbn zeta. unfold Cleanup.cleanup_by_storage_state.
  pose proof (orphan_cleanup_subset (now w) (fs w)) as Horph.
  destruct (Storage.cleanup_orphaned_temp_files settings (now w) (fs w))
    as [files orph]. cbn [fst] in Horph.
  destruct (Storage.get_storage_stats settings du) as [err | stats].
  { cbn. repeat split; done. }
  assert (Htier : ∀ days st,
    let w' := (Cleanup.delete_older_than settings days st
                 (Storage.percent_used stats) orph (with_fs files w)).1 in
    cache w' = cache w ∧ queue w' = queue w ∧ now w' = now w
    ∧ next_uuid w' = next_uuid w
    ∧ (∀ p f, fs w' !! p = Some f → fs w !! p = Some f)
    ∧ jobs w' `sublist_of` jobs w
    ∧ (st ≠ Storage.Healthy → jobs w' = jobs w)).
  { intros days st. cbn zeta. unfold Cleanup.delete_older_than.
    pose proof (delete_files_subset
                  (Database.get_old_file_hashes (now (with_fs files w))
                     (jobs (with_fs files w)) days) (fs (with_fs files w)))
      as Hsub.
    destruct (Storage.delete_files settings _ _) as [files' n].
    cbn [fst] in *. cbn in Hsub |- *. repeat split; try done.
    intros p f Hp. by apply Horph, Hsub. }
  destruct (Storage.status stats) eqn:Hst.
  - unfold Cleanup.cleanup_expired_files.
    destruct (Database.delete_expired_jobs _ _) as [rows deleted] eqn:Hdel.
    pose proof (delete_files_subset
                  (Database.get_old_file_hashes (now (with_jobs rows (with_fs files w)))
                     (jobs (with_jobs rows (with_fs files w)))
                     (file_retention_days settings))
                  (fs (with_jobs rows (with_fs files w)))) as Hsub.
    destruct (Storage.delete_files settings _ _) as [files' n].
    cbn [fst] in *. cbn in Hsub, Hdel |- *. repeat split; try done.
    + intros p f Hp. by apply Horph, Hsub.
    + unfold Database.delete_expired_jobs in Hdel. injection Hdel as <- _.
      apply filter_sublist.
  - apply (Htier 3%Z Storage.Warning).
  - apply (Htier 1%Z Storage.Critical).
  - apply (Htier 0%Z Storage.Emergency).
Qed.

(** X17. Apart from the Healthy branch, a cleanup cycle leaves the table of
    jobs as it is: under storage pressure and after a failed statistics
    call it deletes files only, so the rows of the jobs whose content it
    deleted remain.  No cycle touches the cache, the stream, the clock or
    the source of identifiers, and no cycle creates or alters a file. *)
Theorem cleanup_cycle_frame (du : result Storage.DiskUsage) (w : World) :
  let w' := (Cleanup.cleanup_by_storage_state settings du w).1 in
  cache w' = cache w
  ∧ queue w' = queue w
  ∧ now w' = now w
  ∧ next_uuid w' = next_uuid w
  ∧ (∀ p f, fs w' !! p = Some f → fs w !! p = Some f)
  ∧ jobs w' `sublist_of` jobs w
  ∧ match Storage.get_storage_stats settings du with
    | inl _ =>
        jobs w' = jobs w
        ∧ fs w' = (Storage.cleanup_orphaned_temp_files settings (now w) (fs w)).1
    | inr stats =>
        Storage.status stats ≠ Storage.Healthy → jobs w' = jobs w
    end.
Proof. apply cleanup_cycle_effect. Qed.

End CleanupService.

Lemma expired_cleanup_keeps_every_file_witness :
  fs (Cleanup.cleanup_expired_files get_settings
        (with_now 9999999 Example.recent_upload)).1
  = fs (with_now 9999999 Example.recent_upload).
Proof.
  apply (expired_cleanup_keeps_every_file get_settings
           (with_now 9999999 Example.recent_upload)).
  intros j Hj. cbn in Hj. apply list_elem_of_singleton in Hj. subst j.
  cbn. lia.
Defined.

(* ================================================================== *)
(** * Further properties of the endpoints *)

Section Endpoints.
Context `{Platform} (settings : Settings).

Lemma submit_pending_shape (w0 w1 : World) (name h path : string) (n : nat)
    (resp : FileUploadResponse) :
  Api.submit_pending settings w0 name h path n = (w1, inr resp) →
  let u := next_uuid w0 in
  let row := Database.new_row settings (now w0) u h name n PENDING None in
  resp = {| r_job_id := u; r_status := PENDING;
            r_message := "File uploaded successfully, processing started";
            r_deduplication := false; r_results := None |}
  ∧ w1 = {| now := now w0; next_uuid := S u; fs := fs w0;
            jobs := jobs w0 ++ [row];
            cache := Cache.set_job_status settings (now w0) (cache w0) u row;
            queue := (Queue.publish_job (now w0) (queue w0) u h path n).1 |}.
Proof.
  unfold Api.submit_pending. cbn [uuid4 now jobs with_next_uuid].
  destruct (Database.create_job settings _ _ _ _ _ _ _ _)
    as [e | [rows row]] eqn:Hcreate; [discriminate |].
  apply create_job_inv in Hcreate as (-> & -> & _).
  cbn. by intros [= <- <-].
Qed.

Lemma submit_completed_shape (w0 w1 : World) (name h : string) (n : nat)
    (r : Results) (message : string) (resp : FileUploadResponse) :
  Api.submit_completed settings w0 name h n r message = (w1, inr resp) →
  let u := next_uuid w0 in
  let row := Database.new_row settings (now w0) u h name n COMPLETED (Some r) in
  resp = {| r_job_id := u; r_status := COMPLETED; r_message := message;
            r_deduplication := true; r_results := Some r |}
  ∧ w1 = {| now := now w0; next_uuid := S u; fs := fs w0;
            jobs := jobs w0 ++ [row]; cache := cache w0; queue := queue w0 |}.
Proof.
  unfold Api.submit_completed. cbn [uuid4 now jobs with_next_uuid].
  destruct (Database.create_job settings _ _ _ _ _ _ _ _)
    as [e | [rows row]] eqn:Hcreate; [discriminate |].
  apply create_job_inv in Hcreate as (-> & -> & _).
  cbn. by intros [= <- <-].
Qed.

(** What an answered deduplication does to the state. *)
Lemma submit_shape (w0 w1 : World) (name h path : string) (n : nat)
    (resp : FileUploadResponse) :
  Api.submit settings w0 name h path n = (w1, inr resp) →
  let u := next_uuid w0 in
  r_job_id resp = u ∧ next_uuid w1 = S u ∧ fs w1 = fs w0 ∧ now w1 = now w0
  ∧ ((r_status resp = PENDING ∧ r_deduplication resp = false
      ∧ r_results resp = None
      ∧ jobs w1 = jobs w0 ++ [Database.new_row settings (now w0) u h name n
                                PENDING None]
      ∧ cache w1 = Cache.set_job_status settings (now w0) (cache w0) u
                     (Database.new_row settings (now w0) u h name n PENDING None)
      ∧ queue w1 = (Queue.publish_job (now w0) (queue w0) u h path n).1)
     ∨ (∃ r, r_status resp = COMPLETED ∧ r_deduplication resp = true
          ∧ r_results resp = Some r ∧ truthy r = true
          ∧ jobs w1 = jobs w0 ++ [Database.new_row settings (now w0) u h name n
                                    COMPLETED (Some r)]
          ∧ Cache.job_keys (cache w1) = Cache.job_keys (cache w0)
          ∧ queue w1 = queue w0)).
Proof.
  assert (Hp : ∀ w, Api.submit_pending settings w name h path n = (w1, inr resp) →
    w = w0 →
    let u := next_uuid w0 in
    r_job_id resp = u ∧ next_uuid w1 = S u ∧ fs w1 = fs w0 ∧ now w1 = now w0
    ∧ ((r_status resp = PENDING ∧ r_deduplication resp = false
        ∧ r_results resp = None
        ∧ jobs w1 = jobs w0 ++ [Database.new_row settings (now w0) u h name n
                                  PENDING None]
        ∧ cache w1 = Cache.set_job_status settings (now w0) (cache w0) u
                       (Database.new_row settings (now w0) u h name n PENDING None)
        ∧ queue w1 = (Queue.publish_job (now w0) (queue w0) u h path n).1)
       ∨ (∃ r, r_status resp = COMPLETED ∧ r_deduplication resp = true
            ∧ r_results resp = Some r ∧ truthy r = true
            ∧ jobs w1 = jobs w0 ++ [Database.new_row settings (now w0) u h name n
                                      COMPLETED (Some r)]
            ∧ Cache.job_keys (cache w1) = Cache.job_keys (cache w0)
            ∧ queue w1 = queue w0))).
  { intros w Hs ->. apply submit_pending_shape in Hs as [-> ->].
    cbn. split_and!; try done. left. by split_and!. }
  assert (Hc : ∀ w r message,
    Api.submit_completed settings w name h n r message = (w1, inr resp) →
    truthy r = true →
    next_uuid w = next_uuid w0 → now w = now w0 → fs w = fs w0 →
    jobs w = jobs w0 → queue w = queue w0 →
    Cache.job_keys (cache w) = Cache.job_keys (cache w0) →
    let u := next_uuid w0 in
    r_job_id resp = u ∧ next_uuid w1 = S u ∧ fs w1 = fs w0 ∧ now w1 = now w0
    ∧ ((r_status resp = PENDING ∧ r_deduplication resp = false
        ∧ r_results resp = None
        ∧ jobs w1 = jobs w0 ++ [Database.new_row settings (now w0) u h name n
                                  PENDING None]
        ∧ cache w1 = Cache.set_job_status settings (now w0) (cache w0) u
                       (Database.new_row settings (now w0) u h name n PENDING None)
        ∧ queue w1 = (Queue.publish_job (now w0) (queue w0) u h path n).1)
       ∨ (∃ r, r_status resp = COMPLETED ∧ r_deduplication resp = true
            ∧ r_results resp = Some r ∧ truthy r = true
            ∧ jobs w1 = jobs w0 ++ [Database.new_row settings (now w0) u h name n
                                      COMPLETED (Some r)]
            ∧ Cache.job_keys (cache w1) = Cache.job_keys (cache w0)
            ∧ queue w1 = queue w0))).
  { intros w r message Hs Hr Hu Hn Hf Hj Hq Hk.
    apply submit_completed_shape in Hs as [-> ->].
    cbn. rewrite Hu, Hn, Hf, Hj, Hq, Hk. split_and!; try done.
    right. exists r. by split_and!. }
  unfold Api.submit, Api.submit_from_database.
  destruct (Cache.get_file_results _ _ _) as [c |].
  - destruct (truthy (Cache.fe_results c)) eqn:Hc1.
    + intros Hs. by apply (Hc _ _ _ Hs).
    + destruct (Database.get_completed_job_by_hash _ _) as [e |];
        [| intros Hs; by apply (Hp _ Hs)].
      destruct (Database.results e) as [r |]; [| intros Hs; by apply (Hp _ Hs)].
      destruct (truthy r) eqn:Hr; [| intros Hs; by apply (Hp _ Hs)].
      intros Hs. by apply (Hc _ _ _ Hs).
  - destruct (Database.get_completed_job_by_hash _ _) as [e |];
      [| intros Hs; by apply (Hp _ Hs)].
    destruct (Database.results e) as [r |]; [| intros Hs; by apply (Hp _ Hs)].
    destruct (truthy r) eqn:Hr; [| intros Hs; by apply (Hp _ Hs)].
    intros Hs. by apply (Hc _ _ _ Hs).
Qed.


(** X18. An upload that is answered adds exactly one row to the table, under
    the identifier of the answer and with its status and results, the
    fingerprint and the length of the content; the content is then at its
    canonical location.  A Pending answer appends one entry to the stream,
    which names that job, fingerprint, location and length; a Completed
    answer carries non-empty results, is marked as a deduplication and
    leaves the stream as it was. *)
Theorem upload_answer_shape (req : Api.Request) (w w1 : World)
    (f : Api.UploadFile) (C : list byte) (resp : FileUploadResponse) :
  Api.file f = Some C →
  Api.upload_file settings req w f = (w1, inr resp) →
  let h := sha256_hex C in
  let path := Storage._get_file_path settings h in
  is_Some (fs w1 !! path)
  ∧ now w1 = now w
  ∧ ∃ row,
      jobs w1 = jobs w ++ [row]
      ∧ Database.job_id row = r_job_id resp
      ∧ Database.status row = r_status resp
      ∧ Database.results row = r_results resp
      ∧ Database.file_hash row = h
      ∧ Database.file_size row = length C
      ∧ ((r_status resp = PENDING ∧ r_deduplication resp = false
          ∧ r_results resp = None
          ∧ Queue.entries (queue w1)
            = Queue.entries (queue w)
              ++ [{| Queue.m_job_id := r_job_id resp;
                     Queue.m_file_hash := h;
                     Queue.m_file_path := path;
                     Queue.m_file_size := length C;
                     Queue.m_timestamp := now w |}])
         ∨ (r_status resp = COMPLETED ∧ r_deduplication resp = true
            ∧ (∃ r, r_results resp = Some r ∧ truthy r = true)
            ∧ queue w1 = queue w)).
Proof.
  intros HC Hup. cbn zeta.
  destruct (upload_answered settings req w w1 f C resp HC Hup)
    as (name & files & Hfile & Hs).
  apply submit_shape in Hs. cbn zeta in Hs.
  cbn [next_uuid now fs jobs cache queue with_fs with_next_uuid] in Hs.
  destruct Hs as (Hid & Hnext & Hfs & Hnow & Hcase).
  rewrite Hfs. split; [done |]. split; [done |].
  destruct Hcase as [(Hst & Hd & Hr & Hjobs & _ & Hq)
                    | (r & Hst & Hd & Hr & Htr & Hjobs & _ & Hq)].
  - eexists. split; [exact Hjobs |].
    rewrite Hid, Hst, Hr. cbn. split_and!; try done.
    left. split_and!; try done. by rewrite Hq.
  - eexists. split; [exact Hjobs |].
    rewrite Hid, Hst, Hr. cbn. unfold Database.results_json. cbn. rewrite Htr.
    split_and!; try done. right. split_and!; eauto.
Qed.



(** X21. Once the worker has processed the message of a job, a status
    request reports the final status of the row and never a cached
    earlier one: Completed, with the histogram of the file as results,
    when the file could be read, and Failed, with the error message and
    the results the row had before, when it could not. *)
Theorem status_after_processing (env : Worker.Environ) (w : World)
    (message_id : nat) (message_data : Queue.ScanJobMessage)
    (j : Database.Job) :
  let id := Queue.m_job_id message_data in
  Database.get_job (jobs w) id = Some j →
  let w' := Worker.process_message settings env w message_id message_data in
  ∃ resp,
    (Api.get_job_status settings w' id).2 = inr resp
    ∧ s_job_id resp = id
    ∧ match Worker.scan_file (fs w)
              (Worker.translate settings env (Queue.m_file_path message_data)) with
      | inr r =>
          s_status resp = COMPLETED ∧ s_results resp = Some r
          ∧ s_error_message resp = None
          ∧ s_completed_at resp = Some (now w + 1)%Z
      | inl e =>
          s_status resp = FAILED ∧ s_results resp = Database.results j
          ∧ s_error_message resp = Some (str_exn e)
          ∧ s_completed_at resp = Some (now w + 1)%Z
      end.
Proof.
  intros id Hj w'.
  pose proof (get_job_elem _ _ _ Hj) as [_ Hid].
  assert (Hcache : Cache.get_job_status (now w') (cache w') id = None).
  { pose proof (process_message_effect settings env w message_id message_data)
      as (_ & _ & _ & _ & _ & _ & _ & _ & Hk & _).
    unfold Cache.get_job_status. fold w' in Hk. rewrite Hk.
    by rewrite lookup_delete_eq. }
  unfold Api.get_job_status. rewrite Hcache.
  subst w'. rewrite process_message_last. cbn zeta. fold id.
  pose proof (worker_update_status w id PROCESSING None None j Hj) as H1.
  destruct (Worker.scan_file _ _) as [e | r] eqn:Hscan.
  - pose proof (worker_update_status
                  (sleep 1 (Worker.update_job_status w id PROCESSING None None))
                  id FAILED None (Some (str_exn e)) _ H1) as H2.
    rewrite H2. eexists. split; [reflexivity |]. cbn. by split_and!.
  - pose proof (worker_update_status
                  (sleep 1 (Worker.update_job_status w id PROCESSING None None))
                  id COMPLETED (Some r) None _ H1) as H2.
    cbn [jobs with_queue Worker.cache_results with_cache].
    rewrite H2. eexists. split; [reflexivity |]. cbn.
    unfold Database.results_json. cbn.
    rewrite (scan_result_truthy _ _ _ Hscan). by split_and!.
Qed.

End Endpoints.

Lemma upload_answer_shape_witness :
  ∃ row,
    jobs (Api.upload_file (H := Demo.platform) get_settings Example.calm
            Example.blank (Example.upload None)).1
    = jobs Example.blank ++ [row].
Proof.
  destruct (Api.upload_file (H := Demo.platform) get_settings Example.calm
              Example.blank (Example.upload None)) as [w1 out] eqn:Hup.
  assert (∃ resp, out = inr resp) as [resp ->].
  { apply (f_equal snd) in Hup. vm_compute in Hup. subst out. eauto. }
  destruct (upload_answer_shape (H := Demo.platform) get_settings Example.calm
              Example.blank w1 (Example.upload None) Example.content resp
              eq_refl Hup) as (_ & _ & row & Hrow & _).
  exists row. exact Hrow.
Defined.


Lemma status_after_processing_witness :
  ∃ resp,
    (Api.get_job_status get_settings
       (Worker.process_message (H := Demo.platform) get_settings
          Example.environ Example.fresh_entry 0 (Example.message 0 "/data/x"))
       0).2
    = inr resp.
Proof.
  destruct (status_after_processing (H := Demo.platform) get_settings
              Example.environ Example.fresh_entry 0
              (Example.message 0 "/data/x") (Example.job 0 PENDING None)
              eq_refl) as (resp & Hresp & _).
  exists resp. exact Hresp.
Defined.

(* ================================================================== *)
(** * What the operations keep *)

Section Consistency.
Context `{Platform} (settings : Settings).





(** X23. A status request that follows an answered upload finds the job and
    reports the status and the results of the answer, provided the
    identifiers of the table were all drawn before and nothing is cached
    under an identifier that was not drawn yet. *)
Theorem upload_then_status (req : Api.Request) (w w1 : World)
    (f : Api.UploadFile) (resp : FileUploadResponse) :
  Invariant.ids_below w →
  (∀ id, (next_uuid w ≤ id)%nat → Cache.job_keys (cache w) !! id = None) →
  Api.upload_file settings req w f = (w1, inr resp) →
  ∃ answer,
    (Api.get_job_status settings w1 (r_job_id resp)).2 = inr answer
    ∧ s_job_id answer = r_job_id resp
    ∧ s_status answer = r_status resp
    ∧ s_results answer = r_results resp
    ∧ s_error_message answer = None.
Proof.
  intros Hids Hcache Hup.
  assert (∃ C, Api.file f = Some C) as [C HC].
  { unfold Api.upload_file in Hup.
    destruct (Api.filename f) as [[| a name] |]; try discriminate.
    destruct (Api.file f); [eauto | discriminate]. }
  destruct (upload_answered settings req w w1 f C resp HC Hup)
    as (name & files & _ & Hs).
  apply submit_shape in Hs. cbn zeta in Hs.
  cbn [next_uuid now fs jobs cache queue with_fs with_next_uuid] in Hs.
  destruct Hs as (Hid & _ & _ & Hnow & Hcase).
  assert (Hrow : ∀ row, Database.job_id row = S (next_uuid w) →
            Database.get_job (jobs w ++ [row]) (S (next_uuid w)) = Some row).
  { intros row Hr. apply get_job_snoc; [| done].
    intros j Hj. specialize (Hids j Hj). lia. }
  unfold Api.get_job_status. rewrite Hid.
  destruct Hcase as [(Hst & _ & Hr & Hjobs & Hc & _)
                    | (r & Hst & _ & Hr & Htr & Hjobs & Hk & _)].
  - rewrite Hst, Hr, Hjobs, Hrow by done.
    unfold Cache.get_job_status. rewrite Hc.
    unfold Cache.set_job_status. cbn [Cache.job_keys].
    rewrite lookup_insert_eq. cbn [Cache.live].
    destruct (_ <? _)%Z; eexists; (split; [reflexivity | done]).
  - rewrite Hst, Hr, Hjobs, Hrow by done.
    unfold Cache.get_job_status. rewrite Hk, Hcache by lia. cbn [Cache.live].
    eexists. split; [reflexivity |]. cbn. unfold Database.results_json. cbn.
    by rewrite Htr.
Qed.

(** X24. Under storage pressure the cleanup deletes the content of a job that
    is old enough for the tier and keeps its row; when the worker then
    processes the message of that job, the file is not found: the job
    ends Failed with that error message, and the message is not
    acknowledged. *)
Theorem pressure_cleanup_fails_waiting_job (du : result Storage.DiskUsage)
    (stats : Storage.StorageStats) (days : Z) (w : World)
    (env : Worker.Environ) (message_id : nat)
    (message_data : Queue.ScanJobMessage) (j : Database.Job) :
  Storage.get_storage_stats settings du = inr stats →
  Cleanup.days_of (Storage.status stats) = Some days →
  Database.get_job (jobs w) (Queue.m_job_id message_data) = Some j →
  (Database.created_at j < now w - 86400 * days)%Z →
  Worker.translate settings env (Queue.m_file_path message_data)
  = Storage._get_file_path settings (Database.file_hash j) →
  let w1 := (Cleanup.cleanup_by_storage_state settings du w).1 in
  let w2 := Worker.process_message settings env w1 message_id message_data in
  ∃ j',
    Database.get_job (jobs w2) (Queue.m_job_id message_data) = Some j'
    ∧ Database.status j' = FAILED
    ∧ Database.error_message j'
      = Some ("File not found: "
              +:+ Storage._get_file_path settings (Database.file_hash j))
    ∧ Queue.pending (queue w2) = Queue.pending (queue w).
Proof.
  intros Hstats Hdays Hj Hold Hpath w1 w2.
  pose proof (get_job_elem _ _ _ Hj) as [Hin _].
  pose proof (tier_cleanup_vacates settings du stats w j days Hstats Hdays
                Hin Hold) as Hgone.
  pose proof (cleanup_cycle_effect settings du w)
    as (_ & Hq & _ & _ & _ & _ & Hjobs).
  cbn zeta in Hjobs. rewrite Hstats in Hjobs.
  assert (Hkeep : jobs w1 = jobs w).
  { apply Hjobs. intros Hst. rewrite Hst in Hdays. discriminate. }
  fold w1 in Hgone, Hq.
  subst w2. rewrite process_message_last. cbn zeta.
  unfold Worker.scan_file. rewrite Hpath, Hgone.
  rewrite <- Hkeep in Hj.
  pose proof (worker_update_status w1 _ PROCESSING None None j Hj) as H1.
  pose proof (worker_update_status
                (sleep 1 (Worker.update_job_status w1
                            (Queue.m_job_id message_data) PROCESSING None None))
                _ FAILED None
                (Some (str_exn (FileNotFoundError
                   ("File not found: "
                    +:+ Storage._get_file_path settings (Database.file_hash j)))))
                _ H1) as H2.
  eexists. split; [exact H2 |]. cbn. by rewrite Hq.
Qed.

End Consistency.


Lemma upload_then_status_witness :
  ∃ w1 resp answer,
    Api.upload_file (H := Demo.platform) get_settings Example.calm
      Example.blank (Example.upload None) = (w1, inr resp)
    ∧ (Api.get_job_status get_settings w1 (r_job_id resp)).2 = inr answer
    ∧ s_status answer = r_status resp.
Proof.
  destruct (Api.upload_file (H := Demo.platform) get_settings Example.calm
              Example.blank (Example.upload None)) as [w1 out] eqn:Hup.
  assert (∃ resp, out = inr resp) as [resp ->].
  { apply (f_equal snd) in Hup. vm_compute in Hup. subst out. eauto. }
  destruct (upload_then_status (H := Demo.platform) get_settings Example.calm
              Example.blank w1 (Example.upload None) resp)
    as (answer & Hanswer & _ & Hstatus & _).
  - intros j Hj. apply not_elem_of_nil in Hj. destruct Hj.
  - intros id _. apply lookup_empty.
  - exact Hup.
  - exists w1, resp, answer. by split_and!.
Defined.

Lemma pressure_cleanup_fails_waiting_job_witness :
  ∃ j',
    Database.get_job
      (jobs (Worker.process_message (H := Demo.platform) get_settings
               Example.environ
               (Cleanup.cleanup_by_storage_state (H := Demo.platform)
                  get_settings (inr Example.disk_96) Example.recent_upload).1
               0 (Example.message 1 Example.canonical))) 1
    = Some j'
    ∧ Database.status j' = FAILED.
Proof.
  destruct (Storage.get_storage_stats (H := Demo.platform) get_settings
              (inr Example.disk_96)) as [err | stats] eqn:Hstats;
    [vm_compute in Hstats; discriminate |].
  assert (Hdays : Cleanup.days_of (Storage.status stats) = Some 0%Z).
  { vm_compute in Hstats. injection Hstats as <-. reflexivity. }
  destruct (pressure_cleanup_fails_waiting_job (H := Demo.platform) get_settings
              (inr Example.disk_96) stats 0 Example.recent_upload
              Example.environ 0 (Example.message 1 Example.canonical)
              (Example.job 1 COMPLETED (Some Example.scanned))
              Hstats Hdays eq_refl ltac:(cbn; lia)
              ltac:(vm_compute; reflexivity))
    as (j' & Hj' & Hfailed & _).
  exists j'. split; [exact Hj' | exact Hfailed].
Defined.

(* ================================================================== *)
(** * Further properties of the scan *)

Section ScanTotals.
Context `{Platform}.

Lemma letters_elem (c : N) : c ∈ Histogram.letters ↔ (65 ≤ c ≤ 90)%N.
Proof.
  unfold Histogram.letters. rewrite list_elem_of_In, in_map_iff. split.
  - intros (i & <- & Hi%in_seq). lia.
  - intros Hc. exists (N.to_nat c). split; [apply N2Nat.id |].
    apply in_seq. lia.
Qed.

Lemma letters_NoDup : NoDup Histogram.letters.
Proof.
  unfold Histogram.letters.
  apply (NoDup_fmap_2 N.of_nat), NoDup_seq.
Qed.

Lemma incr_absent (c : N) (counts : Results) :
  c ∉ map fst counts → Worker.incr c counts = counts.
Proof.
  unfold Worker.incr. induction counts as [| [k v] counts IH]; [done |].
  cbn [map fst]. intros [Hk Hc]%not_elem_of_cons. rewrite IH by done.
  cbn [fst]. destruct (N.eqb_spec k c); [congruence | done].
Qed.

Lemma total_incr (c : N) (counts : Results) :
  NoDup (map fst counts) → c ∈ map fst counts →
  Histogram.total (Worker.incr c counts) = S (Histogram.total counts).
Proof.
  induction counts as [| [k v] counts IH].
  - intros _ Hin. by apply not_elem_of_nil in Hin.
  - cbn [map fst]. intros [Hk Hnd]%NoDup_cons Hin.
    change (Worker.incr c ((k, v) :: counts))
      with ((if (k =? c)%N then (k, S v) else (k, v)) :: Worker.incr c counts).
    destruct (N.eqb_spec k c) as [-> | Hne].
    + rewrite incr_absent by done. reflexivity.
    + apply elem_of_cons in Hin as [-> | Hin]; [done |].
      unfold Histogram.total in *. cbn [foldr snd]. rewrite IH by done. lia.
Qed.

Lemma total_count (text : list N) (counts : Results) :
  map fst counts = Histogram.letters →
  Histogram.total
    (fold_left
       (λ counts char,
          if (65 <=? char)%N && (char <=? 90)%N
          then Worker.incr char counts else counts) text counts)
  = (Histogram.total counts
     + length (List.filter (λ c, (65 <=? c)%N && (c <=? 90)%N) text))%nat.
Proof.
  revert counts. induction text as [| c text IH]; intros counts Hkeys.
  - cbn [fold_left List.filter length]. lia.
  - cbn [fold_left List.filter].
    destruct ((65 <=? c)%N && (c <=? 90)%N) eqn:Hc.
    + rewrite IH by (by rewrite incr_keys).
      rewrite total_incr; [cbn [length]; lia | rewrite Hkeys; apply letters_NoDup |].
      rewrite Hkeys. apply letters_elem.
      apply andb_prop in Hc as [?%N.leb_le ?%N.leb_le]. lia.
    + by apply IH.
Qed.

Lemma letters_of_ascii (bs : list byte) :
  forallb Histogram.is_ascii bs = true →
  length (List.filter (λ c, (65 <=? c)%N && (c <=? 90)%N)
            (Worker.upper (map Byte.to_N bs)))
  = length (List.filter Histogram.is_letter bs).
Proof.
  induction bs as [| b bs IH]; [done |].
  cbn [forallb map]. intros [Hb Hbs]%andb_prop.
  change (Byte.to_N b :: map Byte.to_N bs)
    with ([Byte.to_N b] ++ map Byte.to_N bs).
  rewrite upper_app, List.filter_app, length_app, IH by done.
  cbn [List.filter]. unfold Histogram.is_letter, Histogram.is_ascii in *.
  unfold Worker.upper, Worker.upper_char. cbn [map concat].
  rewrite Hb. apply N.ltb_lt in Hb.
  destruct (N.leb_spec 97 (Byte.to_N b)), (N.leb_spec (Byte.to_N b) 122),
    (N.leb_spec 65 (Byte.to_N b)), (N.leb_spec (Byte.to_N b) 90);
    cbn [andb orb app List.filter length];
    repeat match goal with
      | |- context [(?a <=? ?b)%N] => destruct (N.leb_spec a b)
      end;
    cbn [andb orb length Nat.add]; lia.
Qed.

(** X25. The histogram of a stored file does not depend on the reading in
    chunks: it is the count over the whole decoded text.  Its keys are
    the 26 letters in order, and its counts add up to the number of
    characters of the upper-cased text that lie between A and Z, so each
    of them is counted once and nothing else is counted; for a file of
    ASCII bytes this is the number of its letters. *)
Theorem scan_counts_every_letter_once (files : Storage.FS) (file_path : string)
    (f : Storage.File) :
  files !! file_path = Some f →
  ∃ r,
    Worker.scan_file files file_path = inr r
    ∧ r = Worker.count_chunk (map (λ i, (N.of_nat i, 0)) (seq 65 26))
            (Worker.decode (Storage.content f))
    ∧ map fst r = Histogram.letters
    ∧ Histogram.total r
      = length (List.filter (λ c, (65 <=? c)%N && (c <=? 90)%N)
                  (Worker.upper (Worker.decode (Storage.content f))))
    ∧ (forallb Histogram.is_ascii (Storage.content f) = true →
       Histogram.total r
       = length (List.filter Histogram.is_letter (Storage.content f))).
Proof.
  intros Hf. unfold Worker.scan_file. rewrite Hf. eexists.
  split; [reflexivity |].
  rewrite fold_count_chunk_concat, chunks_concat
    by (unfold Worker.chunk_size; lia).
  split; [reflexivity |].
  split; [by rewrite count_chunk_keys |].
  assert (Htotal : Histogram.total
            (Worker.count_chunk (map (λ i, (N.of_nat i, 0)) (seq 65 26))
               (Worker.decode (Storage.content f)))
          = length (List.filter (λ c, (65 <=? c)%N && (c <=? 90)%N)
                      (Worker.upper (Worker.decode (Storage.content f))))).
  { unfold Worker.count_chunk. by rewrite total_count. }
  split; [exact Htotal |].
  intros Hascii. rewrite Htotal, decode_ascii by done.
  by apply letters_of_ascii.
Qed.

End ScanTotals.

Lemma scan_counts_every_letter_once_witness :
  ∃ r,
    Worker.scan_file (H := Demo.platform) Example.volume "/data/x" = inr r
    ∧ Histogram.total r = 9.
Proof.
  destruct (scan_counts_every_letter_once (H := Demo.platform) Example.volume
              "/data/x"
              {| Storage.content := Example.content; Storage.mtime := 0 |}
              eq_refl) as (r & Hr & _ & _ & _ & Hascii).
  exists r. split; [exact Hr |]. rewrite Hascii; reflexivity.
Defined.
